(** * go-mp3 (sukus21 fork): the [Decoder] of decode.go

    A shallow embedding of [decode.go]: the [Decoder] struct, [readFrame],
    [Read], [Seek], [SeekPercent], [ensureFrameStartsAndLength], the volume
    accessors and [NewDecoder], followed by the properties of the streaming
    and positioning contract.

    The packages [internal/frame], [internal/frameheader], [internal/consts]
    and the [source] type are not part of decode.go; the decoder is
    written against them as an interface (the class [Collaborators]). *)

From Stdlib Require Import ZArith List String Bool Lia QArith Qround.
From Stdlib Require Import Strings.Byte.
From Stdlib Require Import Floats.SpecFloat.
Import ListNotations.
Local Open Scope string_scope.
Local Open Scope list_scope.
Local Open Scope Z_scope.

(** ** Machine integers: Go's [int64] (and [int] on 64-bit targets) *)

Definition min_int64 : Z := - 2 ^ 63.
Definition max_int64 : Z := 2 ^ 63 - 1.

(** Two's complement wrap-around of an arithmetic result into [int64]. *)
Definition wrap64 (z : Z) : Z := (z + 2 ^ 63) mod 2 ^ 64 - 2 ^ 63.

Definition add64 (a b : Z) : Z := wrap64 (a + b).
Definition sub64 (a b : Z) : Z := wrap64 (a - b).
Definition mul64 (a b : Z) : Z := wrap64 (a * b).

Definition in_int64 (z : Z) : Prop := min_int64 <= z <= max_int64.

(** Go's [len] of a slice, as an integer. *)
Definition len {A : Type} (l : list A) : Z := Z.of_nat (List.length l).

(** Go's [s[n:]] and [s[:n]] on an in-range [n]. *)
Definition slice_from {A : Type} (l : list A) (n : Z) : list A := skipn (Z.to_nat n) l.
Definition slice_to {A : Type} (l : list A) (n : Z) : list A := firstn (Z.to_nat n) l.

(** ** IEEE 754 numbers: [float64] and [float32]

    Both are the Standard Library's [spec_float], with the precision and
    exponent range of the format passed to each operation. *)

Definition float64 : Type := spec_float.
Definition float32 : Type := spec_float.

Definition f64_zero : float64 := S754_zero false.
Definition f64_one : float64 := binary_normalize 53 1024 1 0 false.
Definition f64_lt (x y : float64) : bool := SFltb x y.
Definition f64_mul (x y : float64) : float64 := SFmul 53 1024 x y.

(** [float64(n)] for an integer [n]: rounded to nearest, ties to even. *)
Definition f64_of_int (n : Z) : float64 := binary_normalize 53 1024 n 0 false.

(** [int64(x)] for a [float64] [x]: truncation toward zero. For a NaN, an
    infinity or a value outside [int64] Go leaves the result to the
    implementation; amd64 gives the smallest [int64]. *)
Definition int64_of_f64 (x : float64) : Z :=
  match x with
  | S754_zero _ => 0
  | S754_finite s m e =>
      let a := Z.shiftl (Zpos m) e in
      let v := if s then - a else a in
      if (min_int64 <=? v) && (v <=? max_int64) then v else min_int64
  | _ => min_int64
  end.

(** The rational number a finite [float64] stands for (0 for the others):
    what the code's product is compared with in exact arithmetic. *)
Definition f64_to_Q (x : float64) : Q :=
  match x with
  | S754_finite s m e =>
      let v := match e with
               | Zneg k => Qmake (Zpos m) (2 ^ k)
               | _ => inject_Z (Zpos m * 2 ^ e)
               end in
      if s then Qopp v else v
  | _ => 0%Q
  end.

Definition f32_zero : float32 := S754_zero false.
Definition f32_one : float32 := binary_normalize 24 128 1 0 false.
Definition f32_lt (x y : float32) : bool := SFltb x y.

(** ** Errors and the [io] constants *)

Inductive error : Type :=
| io_EOF                          (* io.EOF *)
| consts_UnexpectedEOF (at_ : string) (* *consts.UnexpectedEOF *)
| errors_New (msg : string)       (* errors.New(msg) *)
| other_error (code : nat).       (* any other error of a collaborator *)

Definition is_io_EOF (e : error) : bool :=
  match e with io_EOF => true | _ => false end.

Definition is_UnexpectedEOF (e : error) : bool :=
  match e with consts_UnexpectedEOF _ => true | _ => false end.

Definition io_SeekStart : Z := 0.
Definition io_SeekCurrent : Z := 1.
Definition io_SeekEnd : Z := 2.

Definition invalidLength : Z := -1.

(** ** The collaborators of the decoder

    What decode.go uses of the [source] type and of the packages [frame]
    and [frameheader]. A call either returns (with the source it leaves
    behind) or panics. *)

Inductive ext (S A : Type) : Type :=
| Ext (a : A) (s : S)
| ExtPanic (msg : string) (s : S).
Arguments Ext {S A} a s.
Arguments ExtPanic {S A} msg s.

Class Collaborators (Reader source Frame FrameHeader : Type) : Type := {
  (** [Reader] is the [io.Reader]; [source] is the [source] wrapped around
      it (reader, read-ahead buffer, position [source.pos]). *)
  source_new : Reader -> source;                      (* &source{reader: r} *)
  source_isSeeker : source -> bool;                   (* s.reader.(io.Seeker) *)
  source_Seek : Z -> Z -> source -> ext source (Z * option error);
  source_rewind : source -> ext source (option error);
  source_skipTags : source -> ext source (option error);
  source_ReadFull : Z -> source -> ext source (Z * option error);
  (** [frame.Read(source, source.pos, prev)]: the frame (nil on error by
      convention, but the decoder stores whatever comes back), the
      position, the error. [Frame] is [frame.Frame]. *)
  frame_Read : option Frame -> source -> ext source (option Frame * Z * option error);
  (** [f.Decode(volume)], a method on [*Frame]: the PCM bytes, and the
      frame as the call leaves it. *)
  frame_Decode : Frame -> float32 -> list byte * Frame;
  frame_SamplingFrequency : Frame -> Z * option error;
  (** [frameheader.Read(source, source.pos)] and the header's accessors.
      [FrameHeader] is [frameheader.FrameHeader]. *)
  frameheader_Read : source -> ext source (FrameHeader * Z * option error);
  header_BytesPerFrame : FrameHeader -> Z;
  header_FrameSize : FrameHeader -> Z * option error
}.

Module Mp3.

Section Decoder.

Context {Reader source Frame FrameHeader : Type}.
Context {C : Collaborators Reader source Frame FrameHeader}.

(** ** The [Decoder] struct *)

Record Decoder : Type := mkDecoder {
  src : source;               (* source *source *)
  sampleRate : Z;
  length : Z;
  frameStarts : list Z;
  buf : list byte;
  frame : option Frame;       (* *frame.Frame, nil = None *)
  pos : Z;
  bytesPerFrame : Z;
  mux : bool;                 (* sync.Mutex: true = held *)
  volume : float32
}.

Definition set_src (d : Decoder) (v : source) : Decoder :=
  mkDecoder v (sampleRate d) (length d) (frameStarts d) (buf d) (frame d) (pos d) (bytesPerFrame d) (mux d) (volume d).
Definition set_sampleRate (d : Decoder) (v : Z) : Decoder :=
  mkDecoder (src d) v (length d) (frameStarts d) (buf d) (frame d) (pos d) (bytesPerFrame d) (mux d) (volume d).
Definition set_length (d : Decoder) (v : Z) : Decoder :=
  mkDecoder (src d) (sampleRate d) v (frameStarts d) (buf d) (frame d) (pos d) (bytesPerFrame d) (mux d) (volume d).
Definition set_frameStarts (d : Decoder) (v : list Z) : Decoder :=
  mkDecoder (src d) (sampleRate d) (length d) v (buf d) (frame d) (pos d) (bytesPerFrame d) (mux d) (volume d).
Definition set_buf (d : Decoder) (v : list byte) : Decoder :=
  mkDecoder (src d) (sampleRate d) (length d) (frameStarts d) v (frame d) (pos d) (bytesPerFrame d) (mux d) (volume d).
Definition set_frame (d : Decoder) (v : option Frame) : Decoder :=
  mkDecoder (src d) (sampleRate d) (length d) (frameStarts d) (buf d) v (pos d) (bytesPerFrame d) (mux d) (volume d).
Definition set_pos (d : Decoder) (v : Z) : Decoder :=
  mkDecoder (src d) (sampleRate d) (length d) (frameStarts d) (buf d) (frame d) v (bytesPerFrame d) (mux d) (volume d).
Definition set_bytesPerFrame (d : Decoder) (v : Z) : Decoder :=
  mkDecoder (src d) (sampleRate d) (length d) (frameStarts d) (buf d) (frame d) (pos d) v (mux d) (volume d).
Definition set_mux (d : Decoder) (v : bool) : Decoder :=
  mkDecoder (src d) (sampleRate d) (length d) (frameStarts d) (buf d) (frame d) (pos d) (bytesPerFrame d) v (volume d).
Definition set_volume (d : Decoder) (v : float32) : Decoder :=
  mkDecoder (src d) (sampleRate d) (length d) (frameStarts d) (buf d) (frame d) (pos d) (bytesPerFrame d) (mux d) v.

(** ** Methods as state transformers

    A method runs on the decoder and either returns (a value and the
    decoder it leaves behind) or stops: with a run-time panic, blocked on
    the mutex, or (for the two unbounded loops) out of fuel. *)

Inductive stop : Type :=
| panic (msg : string)
| blocked
| out_of_fuel.

Inductive res (A : Type) : Type :=
| Done (a : A) (d : Decoder)
| Stop (why : stop) (d : Decoder).
Arguments Done {A} a d.
Arguments Stop {A} why d.

Definition M (A : Type) : Type := Decoder -> res A.

Definition ret {A : Type} (a : A) : M A := fun d => Done a d.

Definition bind {A B : Type} (m : M A) (k : A -> M B) : M B :=
  fun d => match m d with
           | Done a d' => k a d'
           | Stop w d' => Stop w d'
           end.

Definition get : M Decoder := fun d => Done d d.
Definition modify (f : Decoder -> Decoder) : M unit := fun d => Done tt (f d).
Definition throw {A : Type} (msg : string) : M A := fun d => Stop (panic msg) d.

(** The decoder a run leaves behind, however it ended. *)
Definition final {A : Type} (r : res A) : Decoder :=
  match r with Done _ d => d | Stop _ d => d end.

(** What a run returned, if it returned. *)
Definition returned {A : Type} (r : res A) : option A :=
  match r with Done a _ => Some a | Stop _ _ => None end.

(** [d'] differs from [d] at most in the source, the frame state and the
    output buffer: what reading frames may touch. *)
Definition same_cursor (d d' : Decoder) : Prop :=
  sampleRate d' = sampleRate d /\ length d' = length d /\
  frameStarts d' = frameStarts d /\ pos d' = pos d /\
  bytesPerFrame d' = bytesPerFrame d /\ mux d' = mux d /\
  volume d' = volume d.

(** A method that never waits for the mutex. *)
Definition lock_free {A : Type} (m : M A) : Prop :=
  forall d d', m d <> Stop blocked d'.

Notation "x <- m ;; k" := (bind m (fun x => k))
  (at level 61, m at next level, right associativity).
Notation "' p <- m ;; k" := (bind m (fun p => k))
  (at level 61, p pattern, m at next level, right associativity).
Notation "m ;; k" := (bind m (fun _ => k))
  (at level 61, right associativity).

(** A call into the [source] or into a package that reads from it. *)
Definition on_source {A : Type} (op : source -> ext source A) : M A :=
  fun d => match op (src d) with
           | Ext a s => Done a (set_src d s)
           | ExtPanic msg s => Stop (panic msg) (set_src d s)
           end.

(** Go's [a / b] and [a % b] on [int64]: truncated, panic on [b = 0]. *)
Definition go_div (a b : Z) : M Z :=
  if b =? 0 then throw "runtime error: integer divide by zero"
  else ret (wrap64 (Z.quot a b)).

Definition go_rem (a b : Z) : M Z :=
  if b =? 0 then throw "runtime error: integer divide by zero"
  else ret (Z.rem a b).

(** Go's [l[i]] and [l[n:]], with their bounds checks. *)
Definition index {A : Type} (l : list A) (i : Z) : M A :=
  if (i <? 0) || (len l <=? i) then throw "runtime error: index out of range"
  else match nth_error l (Z.to_nat i) with
       | Some x => ret x
       | None => throw "runtime error: index out of range"
       end.

Definition reslice_from {A : Type} (l : list A) (n : Z) : M (list A) :=
  if (n <? 0) || (len l <? n) then throw "runtime error: slice bounds out of range"
  else ret (slice_from l n).

(** [d.mux.Lock()] and [defer d.mux.Unlock()]: a held mutex blocks the
    caller; the deferred unlock runs when the body returns or panics. *)
Definition Lock : M unit :=
  fun d => if mux d then Stop blocked d else Done tt (set_mux d true).

Definition Unlock (d : Decoder) : Decoder := set_mux d false.

Definition defer {A : Type} (cleanup : Decoder -> Decoder) (body : M A) : M A :=
  fun d => match body d with
           | Done a d' => Done a (cleanup d')
           | Stop (panic msg) d' => Stop (panic msg) (cleanup d')
           | Stop w d' => Stop w d'
           end.

(** ** [BytesPerFrame], [SampleRate], [Length], [GetVolume], [SetVolume] *)

Definition SampleRate : M Z := d <- get ;; ret (sampleRate d).
Definition GetVolume : M float32 := d <- get ;; ret (volume d).

Definition SetVolume (v : float32) : M unit :=
  let v := if f32_lt f32_one v then f32_one
           else if f32_lt v f32_zero then f32_zero
           else v in
  modify (fun d => set_volume d v).

(** ** [readFrame] *)

(** The two results of [d.frame.Decode(d.volume)]. *)
Definition Decode_bytes (f : Frame) (v : float32) : list byte := fst (frame_Decode f v).
Definition Decode_frame (f : Frame) (v : float32) : Frame := snd (frame_Decode f v).

Definition readFrame : M (option error) :=
  d <- get ;;
  '(fr, _, err) <- on_source (frame_Read (frame d)) ;;
  modify (fun d => set_frame d fr) ;;
  match err with
  | Some e =>
      if is_io_EOF e then ret (Some io_EOF)
      else if is_UnexpectedEOF e then ret (Some io_EOF)
      else ret (Some e)
  | None =>
      d <- get ;;
      match frame d with
      | None => throw "runtime error: invalid memory address or nil pointer dereference"
      | Some f =>
          let v := volume d in
          modify (fun d => set_frame d (Some (Decode_frame f v))) ;;
          modify (fun d => set_buf d (buf d ++ Decode_bytes f v)) ;;
          ret None
      end
  end.

(** ** [Read]

    [for len(d.buf) == 0 { readFrame }]: one unit of fuel per frame read. *)

Fixpoint Read_loop (fuel : nat) : M (option error) :=
  d <- get ;;
  if len (buf d) =? 0 then
    match fuel with
    | O => fun d => Stop out_of_fuel d
    | S fuel' =>
        err <- readFrame ;;
        match err with
        | Some e => ret (Some e)
        | None => Read_loop fuel'
        end
    end
  else ret None.

(** The caller's slice [b] is returned as [copy] leaves it. *)
Definition Read (fuel : nat) (b : list byte) : M (list byte * Z * option error) :=
  Lock ;;
  defer Unlock (
    err <- Read_loop fuel ;;
    match err with
    | Some e => ret (b, 0, Some e)
    | None =>
        d <- get ;;
        let n := Z.min (len b) (len (buf d)) in
        let b' := slice_to (buf d) n ++ slice_from b n in
        modify (fun d => set_buf d (slice_from (buf d) n)) ;;
        modify (fun d => set_pos d (add64 (pos d) n)) ;;
        ret (b', n, None)
    end).

(** ** [Seek] *)

(** The [switch whence] of [Seek]: the new position, or none for an
    invalid [whence]. [d.Length()] is the field [length]. *)
Definition seek_target (d : Decoder) (offset whence : Z) : option Z :=
  if whence =? io_SeekStart then Some offset
  else if whence =? io_SeekCurrent then Some (add64 (pos d) offset)
  else if whence =? io_SeekEnd then Some (add64 (length d) offset)
  else None.

Definition Seek (offset whence : Z) : M (Z * option error) :=
  d <- get ;;
  if (offset =? 0) && (whence =? io_SeekCurrent) then ret (pos d, None)
  else
    match seek_target d offset whence with
    | None => ret (0, Some (errors_New "mp3: invalid whence"))
    | Some npos =>
        modify (fun d => set_pos d npos) ;;
        modify (fun d => set_buf d []) ;;
        modify (fun d => set_frame d None) ;;
        d <- get ;;
        f <- go_div (pos d) (bytesPerFrame d) ;;
        if 0 <? f then
          let f := sub64 f 1 in
          start <- index (frameStarts d) f ;;
          '(_, err) <- on_source (source_Seek start 0) ;;
          match err with
          | Some e => ret (0, Some e)
          | None =>
              err <- readFrame ;;
              match err with
              | Some e => ret (0, Some e)
              | None =>
                  err <- readFrame ;;
                  match err with
                  | Some e => ret (0, Some e)
                  | None =>
                      d <- get ;;
                      r <- go_rem (pos d) (bytesPerFrame d) ;;
                      b <- reslice_from (buf d) (add64 (bytesPerFrame d) r) ;;
                      modify (fun d => set_buf d b) ;;
                      ret (npos, None)
                  end
              end
          end
        else
          start <- index (frameStarts d) f ;;
          '(_, err) <- on_source (source_Seek start 0) ;;
          match err with
          | Some e => ret (0, Some e)
          | None =>
              err <- readFrame ;;
              match err with
              | Some e => ret (0, Some e)
              | None =>
                  d <- get ;;
                  b <- reslice_from (buf d) (pos d) ;;
                  modify (fun d => set_buf d b) ;;
                  ret (npos, None)
              end
          end
    end.

(** ** [SeekPercent] *)

(** [int64(float64(len(d.frameStarts)) * where)], the frame the fraction
    [where] designates. *)
Definition fractionFrame (frameCount : Z) (where_ : float64) : Z :=
  int64_of_f64 (f64_mul (f64_of_int frameCount) where_).

(** [for frameIndex < 0 { frameIndex++; offset-- }]. The loop leaves after
    at most [- frameIndex] rounds, the count it is run for here. *)
Fixpoint lookback_rounds (n : nat) (frameIndex offset : Z) : Z * Z :=
  match n with
  | O => (frameIndex, offset)
  | S n' =>
      if frameIndex <? 0
      then lookback_rounds n' (add64 frameIndex 1) (sub64 offset 1)
      else (frameIndex, offset)
  end.

Definition lookback (frameIndex offset : Z) : Z * Z :=
  lookback_rounds (Z.to_nat (- frameIndex)) frameIndex offset.

(** [for i := 0; i < offset; i++ { ...; frameIndex++ }], run for its
    [offset - i] remaining rounds. *)
Fixpoint preread (rounds : nat) (frameIndex : Z) : M (option error) :=
  match rounds with
  | O => ret None
  | S rounds' =>
      err <- (if 0 <=? frameIndex
              then modify (fun d => set_buf d (slice_to (buf d) 0)) ;; readFrame
              else ret None) ;;
      match err with
      | Some e => ret (Some e)
      | None => preread rounds' (add64 frameIndex 1)
      end
  end.

Definition SeekPercent (where_ : float64) : M (Z * option error) :=
  if f64_lt where_ f64_zero
  then ret (0, Some (errors_New "mp3: cannot seek to negative position"))
  else if f64_lt f64_one where_
  then ret (0, Some (errors_New "mp3: cannot seek beyond stream end"))
  else
    Lock ;;
    defer Unlock (
      d <- get ;;
      let offset := 4 in
      let frameIndex := sub64 (fractionFrame (len (frameStarts d)) where_) offset in
      let '(frameIndex, offset) := lookback frameIndex offset in
      modify (fun d => set_frame d None) ;;
      modify (fun d => set_pos d (mul64 (bytesPerFrame d) frameIndex)) ;;
      d <- get ;;
      start <- index (frameStarts d) frameIndex ;;
      '(_, err) <- on_source (source_Seek start io_SeekStart) ;;
      match err with
      | Some e => ret (0, Some e)
      | None =>
          err <- preread (Z.to_nat offset) frameIndex ;;
          match err with
          | Some e => ret (0, Some e)
          | None => d <- get ;; ret (pos d, None)
          end
      end).

(** ** [ensureFrameStartsAndLength]

    The scanning loop, one unit of fuel per header; it ends with the
    running total [l] (a [break]) or with the error the method returns. *)

Fixpoint scan_frames (fuel : nat) (l : Z) : M (Z + error) :=
  match fuel with
  | O => fun d => Stop out_of_fuel d
  | S fuel' =>
      '(h, pos, err) <- on_source frameheader_Read ;;
      match err with
      | Some e =>
          if is_io_EOF e then ret (inl l)
          else if is_UnexpectedEOF e then ret (inl l)
          else ret (inr e)
      | None =>
          modify (fun d => set_frameStarts d (frameStarts d ++ [pos])) ;;
          modify (fun d => set_bytesPerFrame d (header_BytesPerFrame h)) ;;
          d <- get ;;
          let l := add64 l (bytesPerFrame d) in
          let '(framesize, err) := header_FrameSize h in
          match err with
          | Some e => ret (inr e)
          | None =>
              if framesize - 4 <? 0
              then throw "runtime error: makeslice: len out of range"
              else
                '(_, err) <- on_source (source_ReadFull (framesize - 4)) ;;
                match err with
                | Some e => if is_io_EOF e then ret (inl l) else ret (inr e)
                | None => scan_frames fuel' l
                end
          end
      end
  end.

Definition ensureFrameStartsAndLength (fuel : nat) : M (option error) :=
  d <- get ;;
  if negb (length d =? invalidLength) then ret None
  else if negb (source_isSeeker (src d)) then ret None
  else
    '(pos, err) <- on_source (source_Seek 0 io_SeekCurrent) ;;
    match err with
    | Some e => ret (Some e)
    | None =>
        err <- on_source source_rewind ;;
        match err with
        | Some e => ret (Some e)
        | None =>
            err <- on_source source_skipTags ;;
            match err with
            | Some e => ret (Some e)
            | None =>
                r <- scan_frames fuel 0 ;;
                match r with
                | inr e => ret (Some e)
                | inl l =>
                    modify (fun d => set_length d l) ;;
                    '(_, err) <- on_source (source_Seek pos io_SeekStart) ;;
                    match err with
                    | Some e => ret (Some e)
                    | None => ret None
                    end
                end
            end
        end
    end.

(** ** [NewDecoder]

    [&Decoder{source: s, length: invalidLength}]: every other field has
    its zero value. *)

Definition fresh_Decoder (s : source) : Decoder :=
  mkDecoder s 0 invalidLength [] [] None 0 0 false f32_zero.

(** [Done None d] is the return [(d, nil)]; [Done (Some e) _] is
    [(nil, e)]. *)
Definition NewDecoder (fuel : nat) (r : Reader) : res (option error) :=
  (err <- on_source source_skipTags ;;
   match err with
   | Some e => ret (Some e)
   | None =>
       err <- readFrame ;;
       match err with
       | Some e => ret (Some e)
       | None =>
           d <- get ;;
           match frame d with
           | None => throw "runtime error: invalid memory address or nil pointer dereference"
           | Some f =>
               let '(freq, err) := frame_SamplingFrequency f in
               match err with
               | Some e => ret (Some e)
               | None =>
                   modify (fun d => set_sampleRate d freq) ;;
                   err <- ensureFrameStartsAndLength fuel ;;
                   match err with
                   | Some e => ret (Some e)
                   | None =>
                       modify (fun d => set_volume d f32_one) ;;
                       ret None
                   end
               end
           end
       end
   end) (fresh_Decoder (source_new r)).

(** ** Notions the further properties are stated with *)

(** [R] relates the decoder a method is run on to the decoder it leaves
    behind, however the run ends. *)
Definition preserves {A : Type} (R : Decoder -> Decoder -> Prop) (m : M A) : Prop :=
  forall d, R d (final (m d)).

(** A method that, when it does not return, panics: it neither waits for
    the mutex nor runs out of fuel. *)
Definition panics_only {A : Type} (m : M A) : Prop :=
  forall d w d', m d = Stop w d' -> exists msg, w = panic msg.

(** [n] frames read in a row from the source [s], as [n] calls of
    [readFrame] read them: each [frame.Read] is given the frame before it
    as [Decode] left it ([prev] for the first). The result is the last
    frame read and the source behind it; none when [n] is 0 or a read
    fails. *)
Fixpoint frames_from (n : nat) (v : float32) (prev : option Frame) (s : source)
  : option (Frame * source) :=
  match n with
  | O => None
  | S n' =>
      match frame_Read prev s with
      | Ext (Some f, _, None) s' =>
          match n' with
          | O => Some (f, s')
          | S _ => frames_from n' v (Some (Decode_frame f v)) s'
          end
      | _ => None
      end
  end.

End Decoder.

Arguments Done {source Frame A} a d.
Arguments Stop {source Frame A} why d.

End Mp3.

(** ** A concrete stream, to run the decoder on

    A stream of [count] frames of 10 bytes each (a 4-byte header, 6 bytes
    of payload) and no tags. Frame [k] starts at byte [10 * k] and decodes
    to the four bytes [4k], [4k+1], [4k+2], [4k+3], or to four bytes of
    silence at volume 0. The reader may or may not be an [io.Seeker]; a
    seek on one that is not returns an error. *)

Module Toy.

Record reader : Type := mkReader { count : Z; seeker : bool }.

Record stream : Type := mkStream { rd : reader; at_ : Z }.

Definition frameBytes : Z := 10.

Definition sample (n : Z) : byte :=
  match Byte.of_N (Z.to_N (n mod 256)) with
  | Some b => b
  | None => x00
  end.

Definition seek (p whence : Z) (s : stream) : ext stream (Z * option error) :=
  if seeker (rd s) then
    let n := if whence =? io_SeekStart then p
             else if whence =? io_SeekCurrent then at_ s + p
             else frameBytes * count (rd s) + p in
    Ext (n, None) (mkStream (rd s) n)
  else Ext (0, Some (errors_New "mp3: source must be io.Seeker")) s.

Definition rewind (s : stream) : ext stream (option error) :=
  if seeker (rd s) then Ext None (mkStream (rd s) 0)
  else Ext (Some (errors_New "mp3: source must be io.Seeker")) s.

Definition skipTags (s : stream) : ext stream (option error) := Ext None s.

Definition readFull (n : Z) (s : stream) : ext stream (Z * option error) :=
  if at_ s + n <=? frameBytes * count (rd s)
  then Ext (n, None) (mkStream (rd s) (at_ s + n))
  else Ext (0, Some io_EOF) (mkStream (rd s) (frameBytes * count (rd s))).

Definition at_frame (s : stream) : bool :=
  (0 <=? at_ s) && (at_ s mod frameBytes =? 0) && (at_ s / frameBytes <? count (rd s)).

Definition read_frame (prev : option Z) (s : stream) : ext stream (option Z * Z * option error) :=
  if at_frame s
  then Ext (Some (at_ s / frameBytes), at_ s, None) (mkStream (rd s) (at_ s + frameBytes))
  else if frameBytes * count (rd s) <=? at_ s
  then Ext (None, 0, Some io_EOF) s
  else Ext (None, 0, Some (other_error 1)) s.

Definition decode (k : Z) (v : float32) : list byte * Z :=
  (match v with
   | S754_zero _ => [x00; x00; x00; x00]
   | _ => [sample (4 * k); sample (4 * k + 1); sample (4 * k + 2); sample (4 * k + 3)]
   end, k).

Definition read_header (s : stream) : ext stream (Z * Z * option error) :=
  if at_frame s
  then Ext (at_ s / frameBytes, at_ s, None) (mkStream (rd s) (at_ s + 4))
  else if frameBytes * count (rd s) <=? at_ s
  then Ext (0, 0, Some io_EOF) s
  else Ext (0, 0, Some (other_error 1)) s.

#[export] Instance collaborators : Collaborators reader stream Z Z := {|
  source_new := fun r => mkStream r 0;
  source_isSeeker := fun s => seeker (rd s);
  source_Seek := seek;
  source_rewind := rewind;
  source_skipTags := skipTags;
  source_ReadFull := readFull;
  frame_Read := read_frame;
  frame_Decode := decode;
  frame_SamplingFrequency := fun _ => (44100, None);
  frameheader_Read := read_header;
  header_BytesPerFrame := fun _ => 4;
  header_FrameSize := fun _ => (frameBytes, None)
|}.

(** Ten frames, and three, behind a seekable reader; three behind one
    that cannot seek. *)
Definition file10 : reader := mkReader 10 true.
Definition file3 : reader := mkReader 3 true.
Definition pipe3 : reader := mkReader 3 false.

(** The decoder [NewDecoder] returns for a reader. *)
Definition opened (r : reader) : @Mp3.Decoder stream Z := Mp3.final (Mp3.NewDecoder 64 r).

(** Fractions, as [float64]: 0.5, and the [float64] nearest to 0.1 and to
    1/3 (0x3FB999999999999A and 0x3FD5555555555555). *)
Definition half : float64 := binary_normalize 53 1024 1 (-1) false.
Definition tenth : float64 := S754_finite false 7205759403792794 (-56).
Definition third : float64 := S754_finite false 6004799503160661 (-54).

(** The ten-frame decoder after [Seek(17, io.SeekStart)]; with its mutex
    held by another goroutine; and after a [Read] of its first four bytes. *)
Definition landed17 : @Mp3.Decoder stream Z := Mp3.final (Mp3.Seek 17 io_SeekStart (opened file10)).
Definition held : @Mp3.Decoder stream Z := Mp3.set_mux (opened file10) true.
Definition drained : @Mp3.Decoder stream Z := Mp3.final (Mp3.Read 0 [x00; x00; x00; x00] (opened file10)).

(** A caller's slice of six bytes. *)
Definition room6 : list byte := [xff; xff; xff; xff; xff; xff].

End Toy.

(** * Properties *)

Import Mp3.

Ltac inv H := inversion H; subst; clear H.

Ltac break_hyp H :=
  match type of H with
  | context [match ?x with _ => _ end] => destruct x eqn:?
  | context [if ?x then _ else _] => destruct x eqn:?
  end.

Ltac break_goal :=
  match goal with
  | |- context [match ?x with _ => _ end] => destruct x eqn:?
  | |- context [if ?x then _ else _] => destruct x eqn:?
  end.

(** ** Machine arithmetic *)

Lemma wrap64_id (z : Z) : in_int64 z -> wrap64 z = z.
Proof.
  unfold in_int64, min_int64, max_int64, wrap64. intros H.
  rewrite Z.mod_small; lia.
Qed.

Lemma wrap64_range (z : Z) : in_int64 (wrap64 z).
Proof.
  unfold in_int64, min_int64, max_int64, wrap64.
  pose proof (Z.mod_pos_bound (z + 2 ^ 63) (2 ^ 64) ltac:(lia)). lia.
Qed.

Lemma int64_of_f64_range (x : float64) : in_int64 (int64_of_f64 x).
Proof.
  unfold int64_of_f64, in_int64.
  destruct x as [s| s | | s m e]; try (unfold min_int64, max_int64; lia).
  cbv zeta.
  destruct ((min_int64 <=? (if s then - Z.shiftl (Z.pos m) e else Z.shiftl (Z.pos m) e)) &&
            ((if s then - Z.shiftl (Z.pos m) e else Z.shiftl (Z.pos m) e) <=? max_int64)) eqn:E.
  - apply andb_true_iff in E. lia.
  - unfold min_int64, max_int64; lia.
Qed.

Lemma len_nonneg {A : Type} (l : list A) : 0 <= len l.
Proof. unfold len. lia. Qed.

Lemma len_app {A : Type} (l1 l2 : list A) : len (l1 ++ l2) = len l1 + len l2.
Proof. unfold len. rewrite length_app. lia. Qed.

Lemma len_zero_iff {A : Type} (l : list A) : len l = 0 <-> l = [].
Proof.
  unfold len. destruct l; simpl; split; intros H; try reflexivity; try discriminate; lia.
Qed.

Lemma slice_from_app {A : Type} (l1 l2 : list A) (r : Z) :
  0 <= r -> slice_from (l1 ++ l2) (len l1 + r) = slice_from l2 r.
Proof.
  intros Hr. unfold slice_from, len.
  rewrite Z2Nat.inj_add by lia. rewrite Nat2Z.id.
  rewrite skipn_app. rewrite skipn_all2 by lia. simpl.
  f_equal. lia.
Qed.

Section Properties.

Context {Reader source Frame FrameHeader : Type}.
Context {C : Collaborators Reader source Frame FrameHeader}.

Local Abbreviation Decoder := (@Mp3.Decoder source Frame).
Local Abbreviation M := (@Mp3.M source Frame).
Local Abbreviation lock_free := (@Mp3.lock_free source Frame _).

(** ** [readFrame] *)

Lemma readFrame_eq (d : Decoder) :
  readFrame d =
  match frame_Read (frame d) (src d) with
  | ExtPanic msg s => Stop (panic msg) (set_src d s)
  | Ext (fr, _, Some e) s =>
      Done (Some (if is_io_EOF e || is_UnexpectedEOF e then io_EOF else e))
           (set_frame (set_src d s) fr)
  | Ext (None, _, None) s =>
      Stop (panic "runtime error: invalid memory address or nil pointer dereference")
           (set_frame (set_src d s) None)
  | Ext (Some f, _, None) s =>
      Done None (set_buf (set_frame (set_src d s) (Some (Decode_frame f (volume d))))
                         (buf d ++ Decode_bytes f (volume d)))
  end.
Proof.
  unfold readFrame, bind, get, on_source, modify, ret, throw.
  destruct (frame_Read (frame d) (src d)) as [[[fr p] [e|]] s | msg s]; simpl; try reflexivity.
  - destruct fr, e; reflexivity.
  - destruct fr; reflexivity.
Qed.

Lemma readFrame_same_cursor (d d' : Decoder) (e : option error) :
  readFrame d = Done e d' -> same_cursor d d'.
Proof.
  rewrite readFrame_eq. intros H.
  repeat break_hyp H; inv H; repeat split.
Qed.

(** ** Reading a successful run backwards *)

Lemma bind_Done {A B : Type} (m : M A) (k : A -> M B) (d d' : Decoder) (b : B) :
  bind m k d = Done b d' -> exists a d1, m d = Done a d1 /\ k a d1 = Done b d'.
Proof.
  unfold bind. destruct (m d) as [a d1|w d1]; intros H; [eauto | discriminate].
Qed.

Lemma get_Done (d d' a : Decoder) : get d = Done a d' -> a = d /\ d' = d.
Proof. unfold get. intros H. inv H. auto. Qed.

Lemma ret_Done {A : Type} (x a : A) (d d' : Decoder) :
  ret x d = Done a d' -> a = x /\ d' = d.
Proof. unfold ret. intros H. inv H. auto. Qed.

Lemma modify_Done (f : Decoder -> Decoder) (d d' : Decoder) (u : unit) :
  modify f d = Done u d' -> d' = f d.
Proof. unfold modify. intros H. inv H. auto. Qed.

Lemma throw_Done {A : Type} (msg : string) (d d' : Decoder) (a : A) :
  throw msg d = Done a d' -> False.
Proof. unfold throw. discriminate. Qed.

Lemma on_source_Done {A : Type} (op : source -> ext source A) (d d' : Decoder) (a : A) :
  on_source op d = Done a d' -> exists s, op (src d) = Ext a s /\ d' = set_src d s.
Proof.
  unfold on_source. destruct (op (src d)) as [x s|msg s]; intros H; inv H. eauto.
Qed.

Lemma go_div_Done (a b q : Z) (d d' : Decoder) :
  go_div a b d = Done q d' -> b <> 0 /\ q = wrap64 (Z.quot a b) /\ d' = d.
Proof.
  unfold go_div, throw, ret. destruct (b =? 0) eqn:E; intros H; inv H.
  apply Z.eqb_neq in E. auto.
Qed.

Lemma go_rem_Done (a b r : Z) (d d' : Decoder) :
  go_rem a b d = Done r d' -> b <> 0 /\ r = Z.rem a b /\ d' = d.
Proof.
  unfold go_rem, throw, ret. destruct (b =? 0) eqn:E; intros H; inv H.
  apply Z.eqb_neq in E. auto.
Qed.

Lemma index_Done {A : Type} (l : list A) (i : Z) (x : A) (d d' : Decoder) :
  index l i d = Done x d' ->
  0 <= i < len l /\ nth_error l (Z.to_nat i) = Some x /\ d' = d.
Proof.
  unfold index, throw, ret.
  destruct ((i <? 0) || (len l <=? i)) eqn:E; [discriminate|].
  apply orb_false_iff in E.
  destruct (nth_error l (Z.to_nat i)) eqn:En; intros H; inv H.
  repeat split; lia.
Qed.

Lemma reslice_from_Done {A : Type} (l b : list A) (n : Z) (d d' : Decoder) :
  reslice_from l n d = Done b d' ->
  0 <= n <= len l /\ b = slice_from l n /\ d' = d.
Proof.
  unfold reslice_from, throw, ret.
  destruct ((n <? 0) || (len l <? n)) eqn:E; intros H; inv H.
  apply orb_false_iff in E. repeat split; lia.
Qed.

Lemma readFrame_Done_None (d d' : Decoder) :
  readFrame d = Done None d' ->
  exists f p s,
    frame_Read (frame d) (src d) = Ext (Some f, p, None) s /\
    d' = set_buf (set_frame (set_src d s) (Some (Decode_frame f (volume d))))
                 (buf d ++ Decode_bytes f (volume d)).
Proof.
  rewrite readFrame_eq. intros H.
  repeat break_hyp H; inv H. eauto.
Qed.

(** One step through a successful run: split a [bind], and read off what
    the primitive on its left has done. *)
Ltac prim H :=
  first
    [ apply get_Done in H; destruct H; subst
    | apply ret_Done in H; destruct H; subst
    | apply modify_Done in H; subst
    | apply throw_Done in H; contradiction
    | apply go_div_Done in H; destruct H as (? & ? & ?); subst
    | apply go_rem_Done in H; destruct H as (? & ? & ?); subst
    | apply index_Done in H; destruct H as (? & ? & ?); subst
    | apply reslice_from_Done in H; destruct H as (? & ? & ?); subst
    | apply on_source_Done in H; destruct H as (? & ? & ?); subst
    | apply readFrame_Done_None in H; destruct H as (? & ? & ? & ? & ?); subst ].

Ltac step H :=
  match type of H with
  | bind _ _ _ = Done _ _ =>
      let H1 := fresh "Hstep" in
      apply bind_Done in H; destruct H as (? & ? & H1 & H); try prim H1
  | (match ?x with _ => _ end) _ = Done _ _ => destruct x eqn:?
  | (if ?c then _ else _) _ = Done _ _ => destruct c eqn:?
  | (let '(_, _) := ?p in _) _ = Done _ _ => destruct p eqn:?
  | ret _ _ = Done _ _ =>
      let E := fresh "Eret" in
      apply ret_Done in H; destruct H as [E ?]; try discriminate E; subst
  | throw _ _ = Done _ _ => apply throw_Done in H; contradiction
  end.


Ltac frames :=
  repeat match goal with
         | Hr : readFrame _ = Done None _ |- _ =>
             apply readFrame_Done_None in Hr;
             destruct Hr as (? & ? & ? & ? & ?); subst; simpl in *
         end.

(** ** [Seek] *)

(** The position query of [Seek]. *)
Lemma Seek_query (d : Decoder) :
  Seek 0 io_SeekCurrent d = Done (pos d, None) d.
Proof. reflexivity. Qed.

(** What a repositioning seek that succeeds has done, in both branches. *)
Lemma Seek_success (d d' : Decoder) (offset whence t : Z) :
  ~ (offset = 0 /\ whence = io_SeekCurrent) ->
  Seek offset whence d = Done (t, None) d' ->
  seek_target d offset whence = Some t /\
  bytesPerFrame d <> 0 /\
  let f := wrap64 (Z.quot t (bytesPerFrame d)) in
  (0 < f ->
   exists start x0 s0 fr1 p1 s1 fr2 p2 s2,
     0 <= sub64 f 1 < len (frameStarts d) /\
     nth_error (frameStarts d) (Z.to_nat (sub64 f 1)) = Some start /\
     source_Seek start 0 (src d) = Ext (x0, None) s0 /\
     frame_Read None s0 = Ext (Some fr1, p1, None) s1 /\
     frame_Read (Some (Decode_frame fr1 (volume d))) s1 = Ext (Some fr2, p2, None) s2 /\
     let decoded := Decode_bytes fr1 (volume d) ++ Decode_bytes fr2 (volume d) in
     let cut := add64 (bytesPerFrame d) (Z.rem t (bytesPerFrame d)) in
     0 <= cut <= len decoded /\
     d' = set_buf (set_frame (set_src (set_pos d t) s2) (Some (Decode_frame fr2 (volume d))))
                  (slice_from decoded cut)) /\
  (f <= 0 ->
   exists start x0 s0 fr0 p0 s1,
     0 <= f < len (frameStarts d) /\
     nth_error (frameStarts d) (Z.to_nat f) = Some start /\
     source_Seek start 0 (src d) = Ext (x0, None) s0 /\
     frame_Read None s0 = Ext (Some fr0, p0, None) s1 /\
     0 <= t <= len (Decode_bytes fr0 (volume d)) /\
     d' = set_buf (set_frame (set_src (set_pos d t) s1) (Some (Decode_frame fr0 (volume d))))
                  (slice_from (Decode_bytes fr0 (volume d)) t)).
Proof.
  intros Hq H.
  unfold Seek in H. step H.
  destruct ((offset =? 0) && (whence =? io_SeekCurrent)) eqn:Eq.
  { apply andb_true_iff in Eq. exfalso. apply Hq. lia. }
  repeat step H; simpl in *; frames.
  - inv Eret. split; [reflexivity|]. split; [assumption|].
    split; [|intros; lia].
    intros _. do 9 eexists. repeat split; try eassumption; try lia.
  - inv Eret. split; [reflexivity|]. split; [assumption|].
    apply Z.ltb_ge in Heqb.
    split; [intros; lia|].
    intros _. do 6 eexists. repeat split; try eassumption; try lia.
Qed.

(** C6. [Seek(0, io.SeekCurrent)] is a pure query: it returns the current
    position and leaves the whole decoder (position, output buffer, frame
    state, source and its position) as it was. *)
Theorem Seek_zero_current_pure_query (d : Decoder) :
  Seek 0 io_SeekCurrent d = Done (pos d, None) d.
Proof.
  unfold Seek, bind, get.
  change ((0 =? 0) && (io_SeekCurrent =? io_SeekCurrent)) with true.
  cbv iota. unfold ret. reflexivity.
Qed.

(** C7. Round trip: a successful [Seek(x, io.SeekStart)] returns [x], and
    the position query that follows returns [x] too (and changes nothing). *)
Theorem Seek_start_then_query_round_trip (d d' : Decoder) (x r : Z) :
  Seek x io_SeekStart d = Done (r, None) d' ->
  r = x /\ Seek 0 io_SeekCurrent d' = Done (x, None) d'.
Proof.
  intros H.
  apply Seek_success in H; [|intros [_ E]; discriminate E].
  destruct H as (Ht & _ & Hf). cbv zeta in Hf.
  unfold seek_target in Ht. simpl in Ht. inv Ht.
  split; [reflexivity|].
  rewrite Seek_query.
  destruct Hf as [Hpos Hnonpos].
  destruct (Z_lt_le_dec 0 (wrap64 (Z.quot r (bytesPerFrame d)))) as [L|L].
  - destruct (Hpos L) as (? & ? & ? & ? & ? & ? & ? & ? & ? & _ & _ & _ & _ & _ & _ & E).
    subst d'. reflexivity.
  - destruct (Hnonpos L) as (? & ? & ? & ? & ? & ? & _ & _ & _ & _ & _ & E).
    subst d'. reflexivity.
Qed.

(** C4. A repositioning seek (any seek but the position query
    [Seek(0, io.SeekCurrent)]) that succeeds with target [t] in
    [0, length), on a stream whose frames each decode to [bytesPerFrame]
    bytes: with [f = t / bytesPerFrame], if [f > 0] the source is moved to
    frame [f - 1], that frame is read from a cleared frame state and its
    output dropped, then frame [f] is read on top of it, and the buffer is
    left with frame [f]'s bytes from offset [t mod bytesPerFrame] on; if
    [f = 0] only frame 0 is read and the buffer holds its bytes from
    offset [t] on. *)
Theorem Seek_lookback_then_target (d d' : Decoder) (offset whence t : Z) :
  ~ (offset = 0 /\ whence = io_SeekCurrent) ->
  Seek offset whence d = Done (t, None) d' ->
  0 <= t < length d ->
  length d <= max_int64 ->
  0 < bytesPerFrame d ->
  (forall fr, len (Decode_bytes fr (volume d)) = bytesPerFrame d) ->
  let f := t / bytesPerFrame d in
  (0 < f ->
   exists start x0 s0 fr1 p1 s1 fr2 p2 s2,
     nth_error (frameStarts d) (Z.to_nat (f - 1)) = Some start /\
     source_Seek start io_SeekStart (src d) = Ext (x0, None) s0 /\
     frame_Read None s0 = Ext (Some fr1, p1, None) s1 /\
     frame_Read (Some (Decode_frame fr1 (volume d))) s1 = Ext (Some fr2, p2, None) s2 /\
     d' = set_buf (set_frame (set_src (set_pos d t) s2) (Some (Decode_frame fr2 (volume d))))
                  (slice_from (Decode_bytes fr2 (volume d)) (t mod bytesPerFrame d))) /\
  (f = 0 ->
   exists start x0 s0 fr0 p0 s1,
     nth_error (frameStarts d) 0 = Some start /\
     source_Seek start io_SeekStart (src d) = Ext (x0, None) s0 /\
     frame_Read None s0 = Ext (Some fr0, p0, None) s1 /\
     d' = set_buf (set_frame (set_src (set_pos d t) s1) (Some (Decode_frame fr0 (volume d))))
                  (slice_from (Decode_bytes fr0 (volume d)) t)).
Proof.
  intros Hq H Ht Hlen Hbpf Hfmt f.
  apply Seek_success in H; [|assumption].
  destruct H as (_ & _ & Hpos & Hnonpos).
  assert (Hquot : Z.quot t (bytesPerFrame d) = f)
    by (apply Z.quot_div_nonneg; lia).
  assert (Hrem : Z.rem t (bytesPerFrame d) = t mod bytesPerFrame d)
    by (apply Z.rem_mod_nonneg; lia).
  assert (Hf0 : 0 <= f) by (apply Z.div_pos; lia).
  assert (Hft : bytesPerFrame d * f + t mod bytesPerFrame d = t)
    by (symmetry; apply Z.div_mod; lia).
  pose proof (Z.mod_pos_bound t (bytesPerFrame d) Hbpf) as Hm.
  assert (Hfle : f <= t).
  { apply Z.div_le_upper_bound; [lia|].
    pose proof (Z.mul_le_mono_nonneg_r 1 (bytesPerFrame d) t) as Hmul. lia. }
  clearbody f.
  rewrite Hquot, Hrem in *.
  rewrite (wrap64_id f) in * by (unfold in_int64, min_int64, max_int64 in *; lia).
  split.
  - intros L.
    destruct (Hpos L) as (start & x0 & s0 & fr1 & p1 & s1 & fr2 & p2 & s2 &
                          _ & Hn & Hs & Hr1 & Hr2 & _ & E).
    unfold sub64 in Hn.
    rewrite (wrap64_id (f - 1)) in Hn by (unfold in_int64, min_int64, max_int64 in *; lia).
    exists start, x0, s0, fr1, p1, s1, fr2, p2, s2.
    repeat split; try assumption.
    rewrite E. f_equal. unfold add64.
    assert (Hone : bytesPerFrame d * 1 <= bytesPerFrame d * f)
      by (apply Z.mul_le_mono_nonneg_l; lia).
    rewrite wrap64_id.
    2:{ unfold in_int64, min_int64, max_int64 in *. lia. }
    remember (t mod bytesPerFrame d) as m eqn:Em.
    rewrite <- (Hfmt fr1). apply slice_from_app. exact (proj1 Hm).
  - intros Z0.
    destruct (Hnonpos ltac:(lia)) as (start & x0 & s0 & fr0 & p0 & s1 &
                                       _ & Hn & Hs & Hr & _ & E).
    rewrite Z0 in Hn. simpl in Hn.
    exists start, x0, s0, fr0, p0, s1. repeat split; assumption.
Qed.

(** ** The mutex *)

Lemma lock_free_ret {A : Type} (a : A) : lock_free (ret a).
Proof. unfold lock_free, ret. discriminate. Qed.

Lemma lock_free_get : lock_free get.
Proof. unfold lock_free, get. discriminate. Qed.

Lemma lock_free_modify (f : Decoder -> Decoder) : lock_free (modify f).
Proof. unfold lock_free, modify. discriminate. Qed.

Lemma lock_free_throw {A : Type} (msg : string) : lock_free (throw (A := A) msg).
Proof. unfold lock_free, throw. discriminate. Qed.

Lemma lock_free_bind {A B : Type} (m : M A) (k : A -> M B) :
  lock_free m -> (forall a, lock_free (k a)) -> lock_free (bind m k).
Proof.
  unfold lock_free, bind. intros Hm Hk d d'.
  destruct (m d) as [a d1|w d1] eqn:E.
  - apply Hk.
  - intros H. inv H. exact (Hm _ _ E).
Qed.

Lemma lock_free_on_source {A : Type} (op : source -> ext source A) :
  lock_free (on_source op).
Proof.
  unfold lock_free, on_source. intros d d'.
  destruct (op (src d)); discriminate.
Qed.

Lemma lock_free_go_div (a b : Z) : lock_free (go_div a b).
Proof.
  unfold go_div. destruct (b =? 0); [apply lock_free_throw | apply lock_free_ret].
Qed.

Lemma lock_free_go_rem (a b : Z) : lock_free (go_rem a b).
Proof.
  unfold go_rem. destruct (b =? 0); [apply lock_free_throw | apply lock_free_ret].
Qed.

Lemma lock_free_index {A : Type} (l : list A) (i : Z) : lock_free (index l i).
Proof.
  unfold index. destruct ((i <? 0) || (len l <=? i)); [apply lock_free_throw|].
  destruct (nth_error l (Z.to_nat i)); [apply lock_free_ret | apply lock_free_throw].
Qed.

Lemma lock_free_reslice_from {A : Type} (l : list A) (n : Z) :
  lock_free (reslice_from l n).
Proof.
  unfold reslice_from.
  destruct ((n <? 0) || (len l <? n)); [apply lock_free_throw | apply lock_free_ret].
Qed.

Lemma lock_free_readFrame : lock_free readFrame.
Proof.
  intros d d'. rewrite readFrame_eq.
  repeat break_goal; discriminate.
Qed.

Create HintDb lockfree.
#[local] Hint Resolve lock_free_ret lock_free_get lock_free_modify lock_free_throw
  lock_free_on_source lock_free_go_div lock_free_go_rem lock_free_index
  lock_free_reslice_from lock_free_readFrame : lockfree.

Ltac lockfree :=
  repeat first
    [ solve [auto with lockfree]
    | apply lock_free_bind; [|intros]
    | match goal with
      | |- lock_free (match ?x with _ => _ end) => destruct x
      | |- lock_free (if ?c then _ else _) => destruct c
      end ].

Lemma lock_free_Seek (offset whence : Z) : lock_free (Seek offset whence).
Proof. unfold Seek. lockfree. Qed.

Lemma Read_blocks (fuel : nat) (b : list byte) (d : Decoder) :
  mux d = true -> Read fuel b d = Stop blocked d.
Proof. intros H. unfold Read, bind, Lock. rewrite H. reflexivity. Qed.

Lemma SeekPercent_blocks (w : float64) (d : Decoder) :
  f64_lt w f64_zero = false -> f64_lt f64_one w = false ->
  mux d = true -> SeekPercent w d = Stop blocked d.
Proof.
  intros H0 H1 H. unfold SeekPercent, bind, Lock. rewrite H0, H1, H. reflexivity.
Qed.

(** C8. With the mutex held (by a [Read] or a [SeekPercent] in progress
    on another goroutine), [Read] and [SeekPercent] wait for it, but [Seek]
    never does: it takes no lock and runs on the shared decoder at once. *)
Theorem Seek_takes_no_lock (d : Decoder) :
  mux d = true ->
  (forall fuel b, Read fuel b d = Stop blocked d) /\
  (forall w, f64_lt w f64_zero = false -> f64_lt f64_one w = false ->
             SeekPercent w d = Stop blocked d) /\
  (forall offset whence d', Seek offset whence d <> Stop blocked d').
Proof.
  intros H. split; [|split].
  - intros. apply Read_blocks. assumption.
  - intros. apply SeekPercent_blocks; assumption.
  - intros. apply lock_free_Seek.
Qed.

(** C2. On a decoder whose length is unknown and whose frame index was
    never built ([bytesPerFrame] still 0, as [NewDecoder] leaves it on a
    source that is no [io.Seeker]), [Seek(offset, io.SeekEnd)] returns no
    error: it overwrites the position, clears the buffer and the frame
    state, and panics on the division by [bytesPerFrame]. *)
Theorem Seek_end_unknown_length_panics (d : Decoder) (offset : Z) :
  length d = invalidLength ->
  bytesPerFrame d = 0 ->
  Seek offset io_SeekEnd d =
  Stop (panic "runtime error: integer divide by zero")
       (set_frame (set_buf (set_pos d (add64 invalidLength offset)) []) None).
Proof.
  intros Hl Hb. unfold Seek, bind, get.
  rewrite andb_false_r. unfold seek_target. simpl.
  unfold modify, go_div. simpl. rewrite Hb, Hl. reflexivity.
Qed.

(** ** [Read] *)

Lemma unlock_lock (d : Decoder) : mux d = false -> Unlock (set_mux d true) = d.
Proof. destruct d. simpl. intros ->. reflexivity. Qed.

Lemma Read_loop_buffered (fuel : nat) (d : Decoder) :
  buf d <> [] -> Read_loop fuel d = Done None d.
Proof.
  intros H. destruct fuel; simpl; unfold bind, get.
  all: destruct (len (buf d) =? 0) eqn:E; try reflexivity.
  all: apply Z.eqb_eq, len_zero_iff in E; contradiction.
Qed.

(** With bytes in the buffer, [Read] decodes nothing and copies. *)
Lemma Read_buffered (fuel : nat) (b : list byte) (d : Decoder) :
  mux d = false ->
  buf d <> [] ->
  let n := Z.min (len b) (len (buf d)) in
  Read fuel b d =
  Done (slice_to (buf d) n ++ slice_from b n, n, None)
       (set_pos (set_buf d (slice_from (buf d) n)) (add64 (pos d) n)).
Proof.
  intros Hm Hb n. unfold Read, bind, Lock. rewrite Hm.
  unfold defer, bind.
  rewrite Read_loop_buffered by exact Hb.
  unfold get, modify, ret. simpl. fold n.
  f_equal. destruct d. simpl in *. subst. reflexivity.
Qed.

Lemma Read_loop_empty (fuel : nat) (d : Decoder) :
  buf d = [] ->
  Read_loop (S fuel) d =
  match readFrame d with
  | Done (Some e) d1 => Done (Some e) d1
  | Done None d1 => Read_loop fuel d1
  | Stop w d1 => Stop w d1
  end.
Proof.
  intros Hb. simpl. unfold bind at 1. unfold get at 1. rewrite Hb. simpl.
  unfold bind. destruct (readFrame d) as [[e|] d1|w d1]; reflexivity.
Qed.

(** With an empty buffer, [Read] reads one frame and, unless that fails,
    goes on as [Read] does from the decoder holding that frame's bytes. *)
Lemma Read_empty (fuel : nat) (b : list byte) (d : Decoder) :
  mux d = false ->
  buf d = [] ->
  Read (S fuel) b d =
  match frame_Read (frame d) (src d) with
  | ExtPanic msg s => Stop (panic msg) (set_src d s)
  | Ext (fr, _, Some e) s =>
      Done (b, 0, Some (if is_io_EOF e || is_UnexpectedEOF e then io_EOF else e))
           (set_frame (set_src d s) fr)
  | Ext (None, _, None) s =>
      Stop (panic "runtime error: invalid memory address or nil pointer dereference")
           (set_frame (set_src d s) None)
  | Ext (Some f, _, None) s =>
      Read fuel b (set_buf (set_frame (set_src d s) (Some (Decode_frame f (volume d))))
                           (Decode_bytes f (volume d)))
  end.
Proof.
  intros Hm Hb.
  assert (Hread : forall d0, mux d0 = false ->
            Read fuel b d0 = defer Unlock
              (bind (Read_loop fuel) (fun err =>
                 match err with
                 | Some e => ret (b, 0, Some e)
                 | None =>
                     bind get (fun d =>
                       let n := Z.min (len b) (len (buf d)) in
                       let b' := slice_to (buf d) n ++ slice_from b n in
                       bind (modify (fun d => set_buf d (slice_from (buf d) n))) (fun _ =>
                       bind (modify (fun d => set_pos d (add64 (pos d) n))) (fun _ =>
                       ret (b', n, None))))
                 end)) (set_mux d0 true)).
  { intros d0 H0. unfold Read. unfold bind at 1. unfold Lock. rewrite H0. reflexivity. }
  unfold Read at 1. unfold bind at 1. unfold Lock. rewrite Hm.
  unfold defer. unfold bind at 1.
  rewrite Read_loop_empty by (destruct d; exact Hb).
  rewrite readFrame_eq.
  replace (frame (set_mux d true)) with (frame d) by (destruct d; reflexivity).
  replace (src (set_mux d true)) with (src d) by (destruct d; reflexivity).
  destruct (frame_Read (frame d) (src d)) as [[[fr p] [e|]] s | msg s].
  - destruct fr; unfold ret; f_equal; destruct d; simpl in *; subst; reflexivity.
  - destruct fr as [f|].
    + rewrite Hread by (destruct d; exact Hm).
      unfold defer. unfold bind at 2.
      replace (set_mux (set_buf (set_frame (set_src d s) (Some (Decode_frame f (volume d))))
                                (Decode_bytes f (volume d))) true)
        with (set_buf (set_frame (set_src (set_mux d true) s)
                                 (Some (Decode_frame f (volume (set_mux d true)))))
                (buf (set_mux d true) ++ Decode_bytes f (volume (set_mux d true))))
        by (destruct d; simpl in *; subst; reflexivity).
      reflexivity.
    + f_equal. destruct d; simpl in *; subst; reflexivity.
  - f_equal. destruct d; simpl in *; subst; reflexivity.
Qed.

(** C5. [Read(b)] on a decoder whose mutex is free. With an empty output
    buffer it reads exactly one more frame: an [io.EOF] or a truncated
    frame ends the call with 0 bytes and [io.EOF], any other error with 0
    bytes and that error, and a decoded frame is appended and [Read] goes
    on from there. With bytes in the buffer it copies
    [min(len(b), len(buf))] of them, drops them from the buffer, advances
    the position by that count and returns it; the position grows
    strictly when [b] is not empty (and stays when it is). *)
Theorem Read_contract (fuel : nat) (b : list byte) (d : Decoder) :
  mux d = false ->
  min_int64 <= pos d ->
  pos d + len (buf d) <= max_int64 ->
  (buf d = [] ->
   Read (S fuel) b d =
   match frame_Read (frame d) (src d) with
   | ExtPanic msg s => Stop (panic msg) (set_src d s)
   | Ext (fr, _, Some e) s =>
       Done (b, 0, Some (if is_io_EOF e || is_UnexpectedEOF e then io_EOF else e))
            (set_frame (set_src d s) fr)
   | Ext (None, _, None) s =>
       Stop (panic "runtime error: invalid memory address or nil pointer dereference")
            (set_frame (set_src d s) None)
   | Ext (Some f, _, None) s =>
       Read fuel b (set_buf (set_frame (set_src d s) (Some (Decode_frame f (volume d))))
                           (Decode_bytes f (volume d)))
   end) /\
  (buf d <> [] ->
   let n := Z.min (len b) (len (buf d)) in
   Read fuel b d =
   Done (slice_to (buf d) n ++ slice_from b n, n, None)
        (set_pos (set_buf d (slice_from (buf d) n)) (pos d + n)) /\
   (b <> [] -> pos d < pos d + n) /\
   (b = [] -> n = 0)).
Proof.
  intros Hm Hlo Hhi. split.
  - intros Hb. apply Read_empty; assumption.
  - intros Hb n.
    pose proof (len_nonneg b) as Lb. pose proof (len_nonneg (buf d)) as Ld.
    assert (Hd : len (buf d) <> 0) by (rewrite len_zero_iff; exact Hb).
    split; [|split].
    + rewrite Read_buffered by assumption. fold n. unfold add64.
      rewrite wrap64_id; [reflexivity|].
      unfold in_int64, min_int64, max_int64 in *. lia.
    + intros Hne. assert (len b <> 0) by (rewrite len_zero_iff; exact Hne). lia.
    + intros ->. unfold n. simpl. unfold len at 1. simpl. lia.
Qed.

(** ** [SeekPercent] *)

Lemma Lock_Done (d d' : Decoder) (u : unit) :
  Lock d = Done u d' -> mux d = false /\ d' = set_mux d true.
Proof. unfold Lock. destruct (mux d); intros H; inv H. auto. Qed.

Lemma defer_Done {A : Type} (cleanup : Decoder -> Decoder) (m : M A)
      (d d' : Decoder) (a : A) :
  defer cleanup m d = Done a d' -> exists d1, m d = Done a d1 /\ d' = cleanup d1.
Proof.
  unfold defer. destruct (m d) as [x d1|[msg| |] d1]; intros H; inv H. eauto.
Qed.

(** The first loop: a negative start is raised to 0, and the lookback
    count is lowered by as much. *)
Lemma lookback_rounds_spec (n : nat) (frameIndex offset : Z) :
  min_int64 <= frameIndex -> (Z.to_nat (- frameIndex) <= n)%nat ->
  offset <= max_int64 -> min_int64 <= offset + Z.min 0 frameIndex ->
  lookback_rounds n frameIndex offset = (Z.max 0 frameIndex, offset + Z.min 0 frameIndex).
Proof.
  revert frameIndex offset.
  induction n as [|n IH]; intros fi off Hlo Hn Hoff Hoff'; simpl.
  - assert (0 <= fi) by lia.
    f_equal; lia.
  - destruct (fi <? 0) eqn:E.
    + apply Z.ltb_lt in E. unfold add64, sub64.
      rewrite !wrap64_id by (unfold in_int64, min_int64, max_int64 in *; lia).
      rewrite IH by (unfold min_int64, max_int64 in *; lia).
      f_equal; lia.
    + apply Z.ltb_ge in E. f_equal; lia.
Qed.

Lemma lookback_spec (frameIndex offset : Z) :
  min_int64 <= frameIndex ->
  offset <= max_int64 -> min_int64 <= offset + Z.min 0 frameIndex ->
  lookback frameIndex offset = (Z.max 0 frameIndex, offset + Z.min 0 frameIndex).
Proof.
  intros. unfold lookback. apply lookback_rounds_spec; auto.
Qed.

Lemma same_cursor_refl (d : Decoder) : same_cursor d d.
Proof. repeat split. Qed.

Lemma same_cursor_trans (d1 d2 d3 : Decoder) :
  same_cursor d1 d2 -> same_cursor d2 d3 -> same_cursor d1 d3.
Proof.
  unfold same_cursor. intros H1 H2.
  destruct H1 as (?&?&?&?&?&?&?), H2 as (?&?&?&?&?&?&?).
  repeat split; congruence.
Qed.

Lemma preread_same_cursor (rounds : nat) (frameIndex : Z) (d d' : Decoder) (e : option error) :
  preread rounds frameIndex d = Done e d' -> same_cursor d d'.
Proof.
  revert frameIndex d.
  induction rounds as [|n IH]; intros fi d H; simpl in H.
  - inv H. apply same_cursor_refl.
  - step H. destruct (0 <=? fi).
    + step Hstep. apply readFrame_same_cursor in Hstep.
      destruct x as [e0|].
      * inv H. exact Hstep.
      * apply IH in H. eapply same_cursor_trans; [|exact H].
        eapply same_cursor_trans; [|exact Hstep]. repeat split.
    + inv Hstep. simpl in H. apply IH in H. exact H.
Qed.

(** What a [SeekPercent] that succeeds has done. *)
Lemma SeekPercent_success (w : float64) (d d' : Decoder) (p : Z) :
  SeekPercent w d = Done (p, None) d' ->
  f64_lt w f64_zero = false /\ f64_lt f64_one w = false /\ mux d = false /\
  let t := fractionFrame (len (frameStarts d)) w in
  exists k off start x0 s0 d1,
    lookback (sub64 t 4) 4 = (k, off) /\
    0 <= k < len (frameStarts d) /\
    nth_error (frameStarts d) (Z.to_nat k) = Some start /\
    source_Seek start io_SeekStart (src d) = Ext (x0, None) s0 /\
    preread (Z.to_nat off) k
      (set_src (set_pos (set_frame (set_mux d true) None) (mul64 (bytesPerFrame d) k)) s0)
    = Done None d1 /\
    p = mul64 (bytesPerFrame d) k /\ pos d1 = p /\ d' = Unlock d1.
Proof.
  unfold SeekPercent. intros H.
  destruct (f64_lt w f64_zero); [inv H|].
  destruct (f64_lt f64_one w); [inv H|].
  step H. apply Lock_Done in Hstep. destruct Hstep as [Hm ->].
  apply defer_Done in H. destruct H as (d1 & H & ->).
  step H. simpl in H.
  destruct (lookback (sub64 (fractionFrame (len (frameStarts d)) w) 4) 4) as [k off] eqn:El.
  repeat step H; simpl in *.
  inv Eret.
  split; [reflexivity|]. split; [reflexivity|]. split; [assumption|].
  apply preread_same_cursor in Hstep as Hc.
  destruct Hc as (_ & _ & _ & Hp & _). simpl in Hp.
  do 6 eexists. repeat split; try eassumption; try lia.
Qed.

(** C1. A [SeekPercent(w)] that succeeds ([w] then lies in [0,1]) does
    not return the byte offset of the frame [t = int64(frameCount * w)]
    its fraction designates: [d.pos] is assigned from the frame index
    after the lookback was taken off it, before the warm-up frames are
    read, and never again. What is returned, and left as the decoder's
    position, is the offset of frame [max(0, t - 4)], where the warm-up
    starts: a multiple of [bytesPerFrame], but strictly below the offset
    of frame [t] as soon as [t >= 1]. *)
Theorem SeekPercent_returns_lookback_frame (w : float64) (d d' : Decoder) (p : Z) :
  SeekPercent w d = Done (p, None) d' ->
  0 <= fractionFrame (len (frameStarts d)) w ->
  0 <= bytesPerFrame d ->
  bytesPerFrame d * len (frameStarts d) <= max_int64 ->
  let k := Z.max 0 (fractionFrame (len (frameStarts d)) w - 4) in
  f64_lt w f64_zero = false /\ f64_lt f64_one w = false /\
  k < len (frameStarts d) /\
  p = bytesPerFrame d * k /\
  pos d' = p /\
  (bytesPerFrame d | p) /\
  (1 <= fractionFrame (len (frameStarts d)) w -> 0 < bytesPerFrame d ->
   p < bytesPerFrame d * fractionFrame (len (frameStarts d)) w).
Proof.
  intros H Ht Hb Hlen.
  remember (Z.max 0 (fractionFrame (len (frameStarts d)) w - 4)) as k eqn:Ek.
  cbv zeta.
  apply SeekPercent_success in H.
  destruct H as (G0 & G1 & _ & H). cbv zeta in H.
  destruct H as (k' & off & start & x0 & s0 & d1 & El & Hk & _ & _ & _ & Hp & Hpos & ->).
  pose proof (int64_of_f64_range (f64_mul (f64_of_int (len (frameStarts d))) w)) as Hr.
  fold (fractionFrame (len (frameStarts d)) w) in Hr.
  unfold sub64 in El.
  rewrite wrap64_id in El by (unfold in_int64, min_int64, max_int64 in *; lia).
  rewrite lookback_spec in El by (unfold in_int64, min_int64, max_int64 in *; lia).
  rewrite <- Ek in El. injection El as E1 E2. subst k' off.
  assert (Hmul : mul64 (bytesPerFrame d) k = bytesPerFrame d * k).
  { unfold mul64. apply wrap64_id.
    assert (0 <= bytesPerFrame d * k) by (apply Z.mul_nonneg_nonneg; lia).
    assert (bytesPerFrame d * k <= bytesPerFrame d * len (frameStarts d))
      by (apply Z.mul_le_mono_nonneg_l; lia).
    unfold in_int64, min_int64, max_int64 in *. lia. }
  rewrite Hmul in *.
  repeat split; try assumption; try lia.
  all: try (destruct d1; simpl in *; lia).
  exists k. lia.
Qed.

(** With the fraction on frame 0 the lookback is used up: no frame is
    read before or after the seek in the source. *)
Lemma SeekPercent_frame_zero (w : float64) (d : Decoder) :
  mux d = false ->
  f64_lt w f64_zero = false -> f64_lt f64_one w = false ->
  fractionFrame (len (frameStarts d)) w = 0 ->
  SeekPercent w d =
  match frameStarts d with
  | [] => Stop (panic "runtime error: index out of range") (set_pos (set_frame d None) 0)
  | start :: _ =>
      match source_Seek start io_SeekStart (src d) with
      | Ext (_, None) s => Done (0, None) (set_src (set_pos (set_frame d None) 0) s)
      | Ext (_, Some e) s => Done (0, Some e) (set_src (set_pos (set_frame d None) 0) s)
      | ExtPanic msg s => Stop (panic msg) (set_src (set_pos (set_frame d None) 0) s)
      end
  end.
Proof.
  intros Hm G0 G1 Ht. unfold SeekPercent. rewrite G0, G1.
  unfold bind at 1. unfold Lock. rewrite Hm.
  unfold defer. unfold bind at 1. unfold get at 1.
  replace (frameStarts (set_mux d true)) with (frameStarts d) by (destruct d; reflexivity).
  rewrite Ht.
  change (lookback (sub64 0 4) 4) with (0, 0).
  cbv iota beta.
  unfold bind, modify, get, index, on_source, ret, throw, mul64.
  replace (wrap64 (bytesPerFrame (set_frame (set_mux d true) None) * 0)) with 0
    by (rewrite Z.mul_0_r; reflexivity).
  destruct d as [s sr l fs b fr p bpf m v]. simpl in *. subst m.
  destruct fs as [|start rest]; simpl.
  - reflexivity.
  - destruct (source_Seek start io_SeekStart s) as [[x [e|]] s'|msg s']; reflexivity.
Qed.

(** C10. When the fraction designates frame 0 (its [float64] product with
    the frame count truncates to 0), the lookback count goes down to 0,
    [SeekPercent] reads no frame and leaves the output buffer as it was,
    whatever the outcome; when the seek in the source succeeds it reports
    position 0 having changed only the position, the frame state and the
    source, and the next [Read] hands out the bytes that were waiting in
    the buffer before the call. *)
Theorem SeekPercent_frame_zero_keeps_buffer (w : float64) (d : Decoder) :
  mux d = false ->
  f64_lt w f64_zero = false -> f64_lt f64_one w = false ->
  fractionFrame (len (frameStarts d)) w = 0 ->
  len (buf d) <= max_int64 ->
  lookback (sub64 (fractionFrame (len (frameStarts d)) w) 4) 4 = (0, 0) /\
  buf (final (SeekPercent w d)) = buf d /\
  forall start rest x0 s,
    frameStarts d = start :: rest ->
    source_Seek start io_SeekStart (src d) = Ext (x0, None) s ->
    let d' := set_src (set_pos (set_frame d None) 0) s in
    SeekPercent w d = Done (0, None) d' /\
    forall fuel b,
      buf d <> [] ->
      let n := Z.min (len b) (len (buf d)) in
      Read fuel b d' =
      Done (slice_to (buf d) n ++ slice_from b n, n, None)
           (set_pos (set_buf d' (slice_from (buf d) n)) n).
Proof.
  intros Hm G0 G1 Ht Hlen.
  split; [rewrite Ht; reflexivity|].
  rewrite SeekPercent_frame_zero by assumption.
  split.
  - destruct (frameStarts d) as [|start rest]; [destruct d; reflexivity|].
    destruct (source_Seek start io_SeekStart (src d)) as [[x [e|]] s'|msg s'];
      destruct d; reflexivity.
  - intros start rest x0 s Hfs Hs d'.
    rewrite Hfs, Hs. split; [reflexivity|].
    intros fuel b Hb n.
    assert (Hb' : buf d' = buf d) by (destruct d; reflexivity).
    rewrite Read_buffered; [|destruct d; exact Hm | rewrite Hb'; exact Hb].
    rewrite Hb'. fold n.
    replace (pos d') with 0 by (destruct d; reflexivity).
    unfold add64. rewrite wrap64_id; [reflexivity|].
    pose proof (len_nonneg b). pose proof (len_nonneg (buf d)).
    unfold in_int64, min_int64, max_int64 in *. simpl. lia.
Qed.

(** A fraction outside [0,1] is refused before anything is touched. *)
Lemma SeekPercent_out_of_range (w : float64) (d : Decoder) :
  f64_lt w f64_zero = true \/ f64_lt f64_one w = true ->
  exists msg, SeekPercent w d = Done (0, Some (errors_New msg)) d.
Proof.
  intros [H|H]; unfold SeekPercent.
  - rewrite H. eexists. reflexivity.
  - destruct (f64_lt w f64_zero); rewrite ?H; eexists; reflexivity.
Qed.

(** With no frame at all in the index, every fraction in range is on
    frame 0, except a NaN. *)
Lemma fractionFrame_no_frames (w : float64) :
  f64_lt w f64_zero = false -> f64_lt f64_one w = false ->
  fractionFrame 0 w = 0 \/ w = S754_nan.
Proof.
  intros G0 G1. destruct w as [s|s| |s m e].
  - left. reflexivity.
  - destruct s; discriminate.
  - right. reflexivity.
  - left. reflexivity.
Qed.

(** C3. On a decoder whose frame index was never built (no frame starts),
    a [SeekPercent] with its fraction in range returns no error: it has
    cleared the frame state and overwritten the position when it panics on
    indexing the empty [frameStarts]. *)
Theorem SeekPercent_without_index_panics (w : float64) (d : Decoder) :
  mux d = false ->
  frameStarts d = [] ->
  f64_lt w f64_zero = false -> f64_lt f64_one w = false ->
  exists d',
    SeekPercent w d = Stop (panic "runtime error: index out of range") d' /\
    frame d' = None /\ buf d' = buf d /\ src d' = src d.
Proof.
  intros Hm Hfs G0 G1.
  destruct (fractionFrame_no_frames w G0 G1) as [Ht| ->].
  - rewrite SeekPercent_frame_zero; try assumption.
    + rewrite Hfs. eexists. split; [reflexivity|]. destruct d; repeat split.
    + rewrite Hfs. exact Ht.
  - unfold SeekPercent.
    change (f64_lt S754_nan f64_zero) with false.
    change (f64_lt f64_one S754_nan) with false. cbv iota.
    unfold bind at 1. unfold Lock. rewrite Hm.
    unfold defer. unfold bind at 1. unfold get at 1.
    replace (frameStarts (set_mux d true)) with (@nil Z) by (destruct d; simpl in *; congruence).
    replace (lookback (sub64 (fractionFrame (len (@nil Z)) S754_nan) 4) 4)
      with (9223372036854775804, 4) by (vm_compute; reflexivity).
    cbv iota beta.
    unfold bind, modify, get, index.
    replace (frameStarts (set_pos (set_frame (set_mux d true) None)
               (mul64 (bytesPerFrame (set_frame (set_mux d true) None)) 9223372036854775804)))
      with (@nil Z) by (destruct d; simpl in *; congruence).
    change ((9223372036854775804 <? 0) || (len (@nil Z) <=? 9223372036854775804)) with true.
    cbv iota. unfold throw, Unlock.
    eexists. split; [reflexivity|]. destruct d; repeat split.
Qed.

(** ** [ensureFrameStartsAndLength] and [NewDecoder] *)

(** Building the index touches neither the output buffer, nor the frame
    state, nor the volume. *)
Lemma scan_frames_output (fuel : nat) (l : Z) (d d' : Decoder) (r : Z + error) :
  scan_frames fuel l d = Done r d' ->
  buf d' = buf d /\ frame d' = frame d /\ volume d' = volume d.
Proof.
  revert l d d' r. induction fuel as [|fuel IH]; intros l d d' r H; simpl in H.
  - discriminate.
  - repeat step H; simpl in *; try (repeat split; reflexivity).
    apply IH in H. simpl in H. exact H.
Qed.

Lemma ensureFrameStartsAndLength_output (fuel : nat) (d d' : Decoder) (e : option error) :
  ensureFrameStartsAndLength fuel d = Done e d' ->
  buf d' = buf d /\ frame d' = frame d /\ volume d' = volume d.
Proof.
  unfold ensureFrameStartsAndLength. intros H.
  repeat step H; simpl in *; try (repeat split; reflexivity).
  all: apply scan_frames_output in Hstep; simpl in Hstep; exact Hstep.
Qed.

(** On a source that is no [io.Seeker] the index is not built: the length
    stays unknown, [frameStarts] empty and [bytesPerFrame] 0. *)
Lemma ensureFrameStartsAndLength_no_seeker (fuel : nat) (d : Decoder) :
  length d = invalidLength ->
  source_isSeeker (src d) = false ->
  ensureFrameStartsAndLength fuel d = Done None d.
Proof.
  intros Hl Hs. unfold ensureFrameStartsAndLength, bind, get.
  rewrite Hl, Hs. reflexivity.
Qed.

(** On a source that is no [io.Seeker] when the index is due, the decoder
    [NewDecoder] returns has no index: unknown length, no frame starts,
    [bytesPerFrame] 0. *)
Lemma NewDecoder_no_seeker (fuel : nat) (r : Reader) (d : Decoder) :
  NewDecoder fuel r = Done None d ->
  (forall s0 f p s1,
     source_skipTags (source_new r) = Ext None s0 ->
     frame_Read None s0 = Ext (Some f, p, None) s1 ->
     source_isSeeker s1 = false) ->
  length d = invalidLength /\ frameStarts d = [] /\ bytesPerFrame d = 0.
Proof.
  unfold NewDecoder. intros H Hs.
  repeat step H; simpl in *; frames.
  specialize (Hs _ _ _ _ H0 H).
  rewrite ensureFrameStartsAndLength_no_seeker in Hstep0 by (simpl; auto).
  inv Hstep0. simpl. auto.
Qed.

(** C9. In a decoder returned by [NewDecoder], the bytes waiting in the
    output buffer are the first frame decoded at volume 0 (the zero value
    of the field when [readFrame] ran), while the decoder's volume is 1. *)
Theorem NewDecoder_first_frame_at_volume_zero (fuel : nat) (r : Reader) (d : Decoder) :
  NewDecoder fuel r = Done None d ->
  exists s0 f p s1,
    source_skipTags (source_new r) = Ext None s0 /\
    frame_Read None s0 = Ext (Some f, p, None) s1 /\
    buf d = Decode_bytes f f32_zero /\
    volume d = f32_one /\
    GetVolume d = Done f32_one d.
Proof.
  unfold NewDecoder. intros H.
  repeat step H; simpl in *; frames.
  apply ensureFrameStartsAndLength_output in Hstep0. simpl in Hstep0.
  destruct Hstep0 as (Hb & _ & _).
  do 4 eexists. repeat split; eassumption.
Qed.

(** * Further properties of the methods *)

Local Abbreviation preserves := (@Mp3.preserves source Frame _).
Local Abbreviation panics_only := (@Mp3.panics_only source Frame _).
Local Abbreviation same_cursor := (@Mp3.same_cursor source Frame).

(** ** What no method touches *)

Lemma keeps_ret {A : Type} (a : A) : preserves same_cursor (ret a).
Proof. intros d. apply same_cursor_refl. Qed.

Lemma keeps_get : preserves same_cursor get.
Proof. intros d. apply same_cursor_refl. Qed.

Lemma keeps_throw {A : Type} (msg : string) : preserves same_cursor (throw (A := A) msg).
Proof. intros d. apply same_cursor_refl. Qed.

Lemma keeps_bind {A B : Type} (m : M A) (k : A -> M B) :
  preserves same_cursor m -> (forall a, preserves same_cursor (k a)) ->
  preserves same_cursor (bind m k).
Proof.
  intros Hm Hk d. unfold bind. specialize (Hm d).
  destruct (m d) as [a d1|w d1]; simpl in *.
  - eapply same_cursor_trans; [exact Hm | apply Hk].
  - exact Hm.
Qed.

Lemma keeps_on_source {A : Type} (op : source -> ext source A) :
  preserves same_cursor (on_source op).
Proof.
  intros d. unfold on_source. destruct (op (src d)); repeat split.
Qed.

Lemma keeps_set_frame (v : option Frame) :
  preserves same_cursor (modify (fun d => set_frame d v)).
Proof. intros d. repeat split. Qed.

Lemma keeps_set_buf (f : Decoder -> list byte) :
  preserves same_cursor (modify (fun d => set_buf d (f d))).
Proof. intros d. repeat split. Qed.

Lemma keeps_go_div (a b : Z) : preserves same_cursor (go_div a b).
Proof. unfold go_div. destruct (b =? 0); [apply keeps_throw | apply keeps_ret]. Qed.

Lemma keeps_go_rem (a b : Z) : preserves same_cursor (go_rem a b).
Proof. unfold go_rem. destruct (b =? 0); [apply keeps_throw | apply keeps_ret]. Qed.

Lemma keeps_index {A : Type} (l : list A) (i : Z) : preserves same_cursor (index l i).
Proof.
  unfold index. destruct ((i <? 0) || (len l <=? i)); [apply keeps_throw|].
  destruct (nth_error l (Z.to_nat i)); [apply keeps_ret | apply keeps_throw].
Qed.

Lemma keeps_reslice_from {A : Type} (l : list A) (n : Z) :
  preserves same_cursor (reslice_from l n).
Proof.
  unfold reslice_from.
  destruct ((n <? 0) || (len l <? n)); [apply keeps_throw | apply keeps_ret].
Qed.

Lemma keeps_readFrame : preserves same_cursor readFrame.
Proof.
  intros d. rewrite readFrame_eq.
  repeat break_goal; repeat split.
Qed.

Create HintDb keeps.
#[local] Hint Resolve keeps_ret keeps_get keeps_throw keeps_on_source keeps_set_frame
  keeps_set_buf keeps_go_div keeps_go_rem keeps_index keeps_reslice_from
  keeps_readFrame : keeps.

Ltac keeps :=
  repeat first
    [ solve [auto with keeps]
    | apply keeps_bind; [|intros]
    | match goal with
      | |- preserves same_cursor (match ?x with _ => _ end) => destruct x
      | |- preserves same_cursor (if ?c then _ else _) => destruct c
      end ].

Lemma keeps_preread (rounds : nat) (frameIndex : Z) :
  preserves same_cursor (preread rounds frameIndex).
Proof.
  revert frameIndex. induction rounds as [|n IH]; intros fi; simpl.
  - apply keeps_ret.
  - keeps.
Qed.

Lemma keeps_Read_loop (fuel : nat) : preserves same_cursor (Read_loop fuel).
Proof.
  induction fuel as [|n IH]; simpl.
  - apply keeps_bind; [apply keeps_get|]. intros d0.
    destruct (len (buf d0) =? 0); [|apply keeps_ret].
    intros d. apply same_cursor_refl.
  - keeps.
Qed.

(** In every outcome of a repositioning [Seek] (success, error or panic)
    the decoder is left at the target position, and the sample rate, the
    length, the frame index, [bytesPerFrame], the mutex and the volume are
    as before: a seek that fails has still moved the position. *)
Theorem Seek_moves_position_whatever_happens (d : Decoder) (offset whence npos : Z) :
  ~ (offset = 0 /\ whence = io_SeekCurrent) ->
  seek_target d offset whence = Some npos ->
  same_cursor (set_pos d npos) (final (Seek offset whence d)).
Proof.
  intros Hq Ht. unfold Seek. unfold bind at 1. unfold get at 1.
  destruct ((offset =? 0) && (whence =? io_SeekCurrent)) eqn:Eq.
  { apply andb_true_iff in Eq. exfalso. apply Hq. lia. }
  rewrite Ht.
  unfold bind at 1. unfold modify at 1.
  unfold bind at 1. unfold modify at 1.
  unfold bind at 1. unfold modify at 1.
  match goal with
  | |- same_cursor _ (final (?m ?d1)) =>
      assert (K : preserves same_cursor m) by keeps;
      eapply same_cursor_trans; [|apply K]
  end.
  repeat split.
Qed.

(** ** Methods that can only return or panic *)

Lemma panics_only_ret {A : Type} (a : A) : panics_only (ret a).
Proof. intros d w d' H. discriminate H. Qed.

Lemma panics_only_get : panics_only get.
Proof. intros d w d' H. discriminate H. Qed.

Lemma panics_only_modify (f : Decoder -> Decoder) : panics_only (modify f).
Proof. intros d w d' H. discriminate H. Qed.

Lemma panics_only_throw {A : Type} (msg : string) : panics_only (throw (A := A) msg).
Proof. intros d w d' H. inv H. eauto. Qed.

Lemma panics_only_bind {A B : Type} (m : M A) (k : A -> M B) :
  panics_only m -> (forall a, panics_only (k a)) -> panics_only (bind m k).
Proof.
  intros Hm Hk d w d' H. unfold bind in H.
  destruct (m d) as [a d1|w1 d1] eqn:E.
  - eapply Hk; exact H.
  - inv H. eapply Hm; exact E.
Qed.

Lemma panics_only_on_source {A : Type} (op : source -> ext source A) :
  panics_only (on_source op).
Proof.
  intros d w d' H. unfold on_source in H.
  destruct (op (src d)); inv H. eauto.
Qed.

Lemma panics_only_index {A : Type} (l : list A) (i : Z) : panics_only (index l i).
Proof.
  unfold index. destruct ((i <? 0) || (len l <=? i)); [apply panics_only_throw|].
  destruct (nth_error l (Z.to_nat i)); [apply panics_only_ret | apply panics_only_throw].
Qed.

Lemma panics_only_readFrame : panics_only readFrame.
Proof.
  intros d w d' H. rewrite readFrame_eq in H.
  repeat break_hyp H; inv H; eauto.
Qed.

Create HintDb panics.
#[local] Hint Resolve panics_only_ret panics_only_get panics_only_modify panics_only_throw
  panics_only_on_source panics_only_index panics_only_readFrame : panics.

Ltac panics :=
  repeat first
    [ solve [auto with panics]
    | apply panics_only_bind; [|intros]
    | match goal with
      | |- panics_only (match ?x with _ => _ end) => destruct x
      | |- panics_only (if ?c then _ else _) => destruct c
      end ].

Lemma panics_only_preread (rounds : nat) (frameIndex : Z) :
  panics_only (preread rounds frameIndex).
Proof.
  revert frameIndex. induction rounds as [|n IH]; intros fi; simpl; panics.
Qed.

Lemma final_defer {A : Type} (cleanup : Decoder -> Decoder) (body : M A) (d : Decoder) :
  panics_only body -> final (defer cleanup body d) = cleanup (final (body d)).
Proof.
  intros H. unfold defer. destruct (body d) as [a d1|w d1] eqn:E; [reflexivity|].
  destruct (H _ _ _ E) as [msg ->]. reflexivity.
Qed.

Lemma lock_free_Read_loop (fuel : nat) : lock_free (Read_loop fuel).
Proof.
  induction fuel as [|n IH]; simpl.
  - apply lock_free_bind; [apply lock_free_get|]. intros d0.
    destruct (len (buf d0) =? 0); [|apply lock_free_ret].
    intros d d'. discriminate.
  - lockfree.
Qed.

(** In every outcome of a [SeekPercent] with its fraction in range, run
    with the mutex free: the mutex is free again (also after a panic, by
    the deferred unlock), the position is the offset of the frame the
    lookback starts at (also when the seek in the source or a frame read
    failed), and the sample rate, the length, the frame index,
    [bytesPerFrame] and the volume are as before. *)
Theorem SeekPercent_outcome (w : float64) (d : Decoder) :
  mux d = false ->
  f64_lt w f64_zero = false -> f64_lt f64_one w = false ->
  0 <= fractionFrame (len (frameStarts d)) w ->
  let k := Z.max 0 (fractionFrame (len (frameStarts d)) w - 4) in
  same_cursor (set_pos d (mul64 (bytesPerFrame d) k)) (final (SeekPercent w d)).
Proof.
  intros Hm G0 G1 Ht k. unfold SeekPercent. rewrite G0, G1.
  unfold bind at 1. unfold Lock. rewrite Hm.
  pose proof (int64_of_f64_range (f64_mul (f64_of_int (len (frameStarts d))) w)) as Hr.
  fold (fractionFrame (len (frameStarts d)) w) in Hr.
  rewrite final_defer.
  2:{ apply panics_only_bind; [apply panics_only_get|]. intros d0.
      destruct (lookback _ _). panics. apply panics_only_preread. }
  unfold bind at 1. unfold get at 1.
  replace (frameStarts (set_mux d true)) with (frameStarts d) by (destruct d; reflexivity).
  unfold sub64. rewrite wrap64_id by (unfold in_int64, min_int64, max_int64 in *; lia).
  rewrite lookback_spec by (unfold in_int64, min_int64, max_int64 in *; lia).
  fold k.
  unfold bind at 1. unfold modify at 1.
  unfold bind at 1. unfold modify at 1.
  match goal with
  | |- same_cursor _ (Unlock (final (?m ?d1))) =>
      assert (K : preserves same_cursor m) by (keeps; apply keeps_preread);
      specialize (K d1); remember (final (m d1)) as d2 eqn:E2; clear E2
  end.
  destruct K as (K1 & K2 & K3 & K4 & K5 & K6 & K7).
  unfold Unlock. clearbody k.
  destruct d, d2; simpl in *; subst. repeat split.
Qed.

(** What [Read] leaves behind, run with the mutex free. A read that
    returns bytes has moved the position by their count; a read that
    returns an error returns 0 bytes, the caller's slice untouched and the
    position where it was; so does a read that panics. In each of these
    the mutex is free again, and the sample rate, the length, the frame
    index, [bytesPerFrame] and the volume are never changed. *)
Theorem Read_outcome (fuel : nat) (b : list byte) (d : Decoder) :
  mux d = false ->
  match Read fuel b d with
  | Done (_, n, None) d' => same_cursor (set_pos d (add64 (pos d) n)) d'
  | Done (b', n, Some _) d' => b' = b /\ n = 0 /\ same_cursor d d'
  | Stop (panic _) d' => same_cursor d d'
  | Stop out_of_fuel d' => same_cursor (set_mux d true) d'
  | Stop blocked _ => False
  end.
Proof.
  intros Hm. unfold Read. unfold bind at 1. unfold Lock. rewrite Hm.
  unfold defer. unfold bind at 1.
  pose proof (keeps_Read_loop fuel (set_mux d true)) as K.
  pose proof (lock_free_Read_loop fuel (set_mux d true)) as L.
  destruct (Read_loop fuel (set_mux d true)) as [[e|] d1|[msg| |] d1]; simpl in K.
  - unfold ret. split; [reflexivity|]. split; [reflexivity|].
    destruct K as (K1 & K2 & K3 & K4 & K5 & K6 & K7).
    destruct d, d1; simpl in *; subst. repeat split.
  - unfold bind, get, modify, ret.
    destruct K as (K1 & K2 & K3 & K4 & K5 & K6 & K7).
    destruct d, d1; simpl in *; subst. repeat split.
  - destruct K as (K1 & K2 & K3 & K4 & K5 & K6 & K7).
    destruct d, d1; simpl in *; subst. repeat split.
  - exact (L d1 eq_refl).
  - exact K.
Qed.

(** ** More on [Seek] *)

(** A [whence] other than 0, 1 and 2 is refused with an error before the
    decoder is touched. *)
Theorem Seek_invalid_whence (d : Decoder) (offset whence : Z) :
  whence <> io_SeekStart -> whence <> io_SeekCurrent -> whence <> io_SeekEnd ->
  Seek offset whence d = Done (0, Some (errors_New "mp3: invalid whence")) d.
Proof.
  intros H0 H1 H2. unfold Seek, bind, get, seek_target.
  apply Z.eqb_neq in H0, H1, H2. rewrite H0, H1, H2.
  rewrite andb_false_r. reflexivity.
Qed.

(** [whence] only decides how the target is computed: a seek relative to
    the current position (by a non-zero offset) or to the end is, in every
    outcome, the seek from the start to the position it computes. *)
Theorem Seek_relative_is_absolute (d : Decoder) (offset : Z) :
  (offset <> 0 ->
   Seek offset io_SeekCurrent d = Seek (add64 (pos d) offset) io_SeekStart d) /\
  Seek offset io_SeekEnd d = Seek (add64 (length d) offset) io_SeekStart d.
Proof.
  split.
  - intros H. apply Z.eqb_neq in H.
    unfold Seek. unfold bind at 1 4. unfold get at 1 2.
    rewrite H. rewrite andb_false_r. reflexivity.
  - unfold Seek. unfold bind at 1 4. unfold get at 1 2.
    rewrite !andb_false_r. reflexivity.
Qed.

(** On a decoder whose [bytesPerFrame] is positive, a repositioning seek
    never succeeds at a negative position, nor a whole frame or more
    beyond the last indexed frame. *)
Theorem Seek_success_within_index (d d' : Decoder) (offset whence t : Z) :
  ~ (offset = 0 /\ whence = io_SeekCurrent) ->
  Seek offset whence d = Done (t, None) d' ->
  in_int64 t ->
  0 < bytesPerFrame d ->
  0 <= t < bytesPerFrame d * (len (frameStarts d) + 1).
Proof.
  intros Hq H Hr Hb.
  apply Seek_success in H; [|assumption].
  destruct H as (_ & _ & Hpos & Hnonpos). cbv zeta in Hpos, Hnonpos.
  destruct (Z_lt_le_dec t 0) as [N|N].
  - (* a negative target takes the branch of the first frame, which fails *)
    exfalso.
    assert (Hq' : Z.quot t (bytesPerFrame d) = - ((- t) / bytesPerFrame d)).
    { rewrite <- (Z.opp_involutive t) at 1. rewrite Z.quot_opp_l by lia.
      rewrite Z.quot_div_nonneg by lia. reflexivity. }
    assert (H0 : 0 <= (- t) / bytesPerFrame d) by (apply Z.div_pos; lia).
    assert (H1 : (- t) / bytesPerFrame d <= - t).
    { apply Z.div_le_upper_bound; [lia|].
      pose proof (Z.mul_le_mono_nonneg_r 1 (bytesPerFrame d) (- t)). lia. }
    rewrite Hq' in *.
    rewrite wrap64_id in * by (unfold in_int64, min_int64, max_int64 in *; lia).
    destruct (Hnonpos ltac:(lia)) as (? & ? & ? & ? & ? & ? & _ & _ & _ & _ & Hb0 & _).
    lia.
  - split; [exact N|].
    assert (Hq' : Z.quot t (bytesPerFrame d) = t / bytesPerFrame d)
      by (apply Z.quot_div_nonneg; lia).
    assert (H0 : 0 <= t / bytesPerFrame d) by (apply Z.div_pos; lia).
    assert (H1 : t / bytesPerFrame d <= t).
    { apply Z.div_le_upper_bound; [lia|].
      pose proof (Z.mul_le_mono_nonneg_r 1 (bytesPerFrame d) t). lia. }
    assert (H2 : t < bytesPerFrame d * (t / bytesPerFrame d + 1)).
    { pose proof (Z.mul_succ_div_gt t (bytesPerFrame d) Hb). lia. }
    rewrite Hq' in *.
    remember (t / bytesPerFrame d) as q eqn:Eq.
    rewrite wrap64_id in * by (unfold in_int64, min_int64, max_int64 in *; lia).
    assert (Hle : q <= len (frameStarts d)).
    { destruct (Z_lt_le_dec 0 q) as [L|L].
      - destruct (Hpos L) as (? & ? & ? & ? & ? & ? & ? & ? & ? & Hi & _).
        unfold sub64 in Hi.
        rewrite wrap64_id in Hi by (unfold in_int64, min_int64, max_int64 in *; lia).
        lia.
      - destruct (Hnonpos L) as (? & ? & ? & ? & ? & ? & Hi & _). lia. }
    assert (bytesPerFrame d * (q + 1) <= bytesPerFrame d * (len (frameStarts d) + 1))
      by (apply Z.mul_le_mono_nonneg_l; lia).
    lia.
Qed.

Lemma len_slice_from {A : Type} (l : list A) (n : Z) :
  0 <= n <= len l -> len (slice_from l n) = len l - n.
Proof.
  intros H. unfold slice_from, len in *. rewrite length_skipn. lia.
Qed.

Lemma len_slice_to {A : Type} (l : list A) (n : Z) :
  0 <= n <= len l -> len (slice_to l n) = n.
Proof.
  intros H. unfold slice_to, len in *. rewrite length_firstn. lia.
Qed.

Lemma slice_from_all {A : Type} (l : list A) : slice_from l (len l) = [].
Proof. unfold slice_from, len. rewrite Nat2Z.id. apply skipn_all. Qed.

(** The [Read] that follows a successful repositioning seek (on a stream
    whose frames each decode to [bytesPerFrame] bytes) decodes nothing: it
    hands out the bytes of the target frame from offset [t mod
    bytesPerFrame] on, as many as fit the caller's slice, and moves the
    position from [t] by their count. *)
Theorem Seek_then_Read (d d' : Decoder) (offset whence t : Z) :
  ~ (offset = 0 /\ whence = io_SeekCurrent) ->
  Seek offset whence d = Done (t, None) d' ->
  mux d = false ->
  0 <= t ->
  t + bytesPerFrame d <= max_int64 ->
  0 < bytesPerFrame d ->
  (forall fr, len (Decode_bytes fr (volume d)) = bytesPerFrame d) ->
  exists fr,
    let rest := slice_from (Decode_bytes fr (volume d)) (t mod bytesPerFrame d) in
    buf d' = rest /\
    len rest = bytesPerFrame d - t mod bytesPerFrame d /\
    forall fuel b,
      let n := Z.min (len b) (len rest) in
      Read fuel b d' =
      Done (slice_to rest n ++ slice_from b n, n, None)
           (set_pos (set_buf d' (slice_from rest n)) (t + n)).
Proof.
  intros Hq H Hm Ht Hmax Hbpf Hfmt.
  pose proof (Seek_success _ _ _ _ _ Hq H) as (_ & _ & Hpos & Hnonpos).
  cbv zeta in Hpos, Hnonpos.
  assert (Hquot : Z.quot t (bytesPerFrame d) = t / bytesPerFrame d)
    by (apply Z.quot_div_nonneg; lia).
  assert (Hrem : Z.rem t (bytesPerFrame d) = t mod bytesPerFrame d)
    by (apply Z.rem_mod_nonneg; lia).
  assert (Hf0 : 0 <= t / bytesPerFrame d) by (apply Z.div_pos; lia).
  assert (Hft : bytesPerFrame d * (t / bytesPerFrame d) + t mod bytesPerFrame d = t)
    by (symmetry; apply Z.div_mod; lia).
  pose proof (Z.mod_pos_bound t (bytesPerFrame d) Hbpf) as Hmod.
  assert (Hfle : t / bytesPerFrame d <= t).
  { apply Z.div_le_upper_bound; [lia|].
    pose proof (Z.mul_le_mono_nonneg_r 1 (bytesPerFrame d) t). lia. }
  rewrite Hquot, Hrem in *.
  remember (t / bytesPerFrame d) as f eqn:Ef.
  remember (t mod bytesPerFrame d) as r eqn:Er.
  rewrite (wrap64_id f) in * by (unfold in_int64, min_int64, max_int64 in *; lia).
  assert (Hstate : exists fr, buf d' = slice_from (Decode_bytes fr (volume d)) r /\
                              mux d' = false /\ pos d' = t).
  { destruct (Z_lt_le_dec 0 f) as [L|L].
    - destruct (Hpos L) as (start & x0 & s0 & fr1 & p1 & s1 & fr2 & p2 & s2 &
                            _ & _ & _ & _ & _ & _ & E).
      exists fr2. subst d'. simpl. split; [|split; [destruct d; exact Hm | reflexivity]].
      unfold add64.
      assert (Hone : bytesPerFrame d * 1 <= bytesPerFrame d * f)
        by (apply Z.mul_le_mono_nonneg_l; lia).
      rewrite wrap64_id by (unfold in_int64, min_int64, max_int64 in *; lia).
      rewrite <- (Hfmt fr1). apply slice_from_app. lia.
    - destruct (Hnonpos L) as (start & x0 & s0 & fr0 & p0 & s1 & _ & _ & _ & _ & _ & E).
      exists fr0. subst d'. simpl. split; [|split; [destruct d; exact Hm | reflexivity]].
      assert (f = 0) by lia. subst f.
      f_equal. lia. }
  destruct Hstate as (fr & Hbuf & Hmux & Hp).
  exists fr. cbv zeta.
  assert (Hlen : len (slice_from (Decode_bytes fr (volume d)) r) = bytesPerFrame d - r).
  { rewrite len_slice_from by (rewrite Hfmt; lia). rewrite Hfmt. reflexivity. }
  split; [exact Hbuf|]. split; [exact Hlen|].
  intros fuel b.
  assert (Hne : buf d' <> []).
  { rewrite Hbuf. intros E. apply len_zero_iff in E. lia. }
  rewrite Read_buffered by assumption.
  rewrite Hbuf, Hp. unfold add64.
  pose proof (len_nonneg b).
  rewrite wrap64_id; [reflexivity|].
  unfold in_int64, min_int64, max_int64 in *. lia.
Qed.

(** ** More on [Read] *)

Lemma Read_loop_Done_None (fuel : nat) (d d' : Decoder) :
  Read_loop fuel d = Done None d' -> buf d' <> [].
Proof.
  revert d. induction fuel as [|n IH]; intros d H; simpl in H.
  - unfold bind, get in H. destruct (len (buf d) =? 0) eqn:E; [discriminate|].
    inv H. intros E0. apply len_zero_iff in E0. apply Z.eqb_neq in E. contradiction.
  - unfold bind at 1 in H. unfold get at 1 in H.
    destruct (len (buf d) =? 0) eqn:E.
    + unfold bind in H. destruct (readFrame d) as [[e|] d1|w d1]; try discriminate.
      apply IH in H. exact H.
    + inv H. intros E0. apply len_zero_iff in E0. apply Z.eqb_neq in E. contradiction.
Qed.

(** A [Read] that returns without error into a slice that is not empty
    returns at least one byte and at most [len(b)]; the caller's slice
    keeps its length and its bytes from [n] on, and the position has moved
    by [n] when that does not overflow. *)
Theorem Read_returns_some_bytes (fuel : nat) (b b' : list byte) (n : Z) (d d' : Decoder) :
  Read fuel b d = Done (b', n, None) d' ->
  0 <= n <= len b /\
  (b <> [] -> 0 < n) /\
  len b' = len b /\
  slice_from b' n = slice_from b n /\
  (pos d + n <= max_int64 -> min_int64 <= pos d -> pos d' = pos d + n).
Proof.
  unfold Read. intros H.
  step H. apply Lock_Done in Hstep. destruct Hstep as [Hm ->].
  apply defer_Done in H. destruct H as (d1 & H & ->).
  step H. destruct x0 as [e|]; [inv H|].
  apply Read_loop_Done_None in Hstep as Hne.
  pose proof (keeps_Read_loop fuel (set_mux d true)) as K. rewrite Hstep in K. simpl in K.
  repeat step H.
  pose proof (len_nonneg b) as Lb. pose proof (len_nonneg (buf x1)) as Lx.
  assert (Lx' : len (buf x1) <> 0) by (rewrite len_zero_iff; exact Hne).
  remember (Z.min (len b) (len (buf x1))) as m eqn:Em.
  injection Eret as -> ->.
  assert (Hn : 0 <= m <= len b) by lia.
  assert (Hn' : m <= len (buf x1)) by lia.
  split; [exact Hn|]. split.
  { intros Hb. assert (len b <> 0) by (rewrite len_zero_iff; exact Hb). lia. }
  split.
  { rewrite len_app, len_slice_to, len_slice_from by lia. lia. }
  split.
  { unfold slice_from at 1. unfold slice_to.
    rewrite skipn_app. rewrite length_firstn.
    replace (Z.to_nat m - Nat.min (Z.to_nat m) (List.length (buf x1)))%nat with 0%nat
      by (unfold len in *; lia).
    rewrite skipn_all2 by (rewrite length_firstn; unfold len in *; lia).
    reflexivity. }
  intros Hhi Hlo. simpl.
  destruct K as (_ & _ & _ & Hp & _). simpl in Hp. rewrite Hp.
  unfold add64. apply wrap64_id.
  unfold in_int64, min_int64, max_int64 in *. lia.
Qed.

Lemma firstn_plus {A : Type} (a b : nat) (l : list A) :
  firstn (a + b) l = firstn a l ++ firstn b (skipn a l).
Proof.
  revert l. induction a as [|a IH]; intros l; simpl; [reflexivity|].
  destruct l as [|x l]; simpl.
  - rewrite firstn_nil. reflexivity.
  - rewrite IH. reflexivity.
Qed.

(** Two reads out of the bytes already buffered hand out consecutive
    pieces of the buffer, and leave the decoder as the one read of both
    pieces at once does. *)
Theorem Read_in_two_pieces (f1 f2 f3 : nat) (b1 b2 : list byte) (d : Decoder) :
  mux d = false ->
  b2 <> [] ->
  len b1 + len b2 <= len (buf d) ->
  min_int64 <= pos d ->
  pos d + len (buf d) <= max_int64 ->
  exists d1 d2,
    Read f1 b1 d = Done (slice_to (buf d) (len b1), len b1, None) d1 /\
    Read f2 b2 d1 =
      Done (slice_to (slice_from (buf d) (len b1)) (len b2), len b2, None) d2 /\
    Read f3 (b1 ++ b2) d =
      Done (slice_to (buf d) (len b1 + len b2), len b1 + len b2, None) d2 /\
    slice_to (buf d) (len b1) ++ slice_to (slice_from (buf d) (len b1)) (len b2)
    = slice_to (buf d) (len b1 + len b2).
Proof.
  intros Hm Hb2 Hlen Hlo Hhi.
  pose proof (len_nonneg b1) as L1. pose proof (len_nonneg b2) as L2.
  assert (L2' : len b2 <> 0) by (rewrite len_zero_iff; exact Hb2).
  assert (Hne : buf d <> []).
  { intros E. rewrite E in Hlen. unfold len at 3 in Hlen. simpl in Hlen. lia. }
  set (d1 := set_pos (set_buf d (slice_from (buf d) (len b1))) (pos d + len b1)).
  set (d2 := set_pos (set_buf d (slice_from (buf d) (len b1 + len b2)))
                     (pos d + (len b1 + len b2))).
  exists d1, d2.
  assert (R1 : Read f1 b1 d = Done (slice_to (buf d) (len b1), len b1, None) d1).
  { rewrite Read_buffered by assumption.
    rewrite Z.min_l by lia. rewrite slice_from_all, app_nil_r.
    unfold add64. rewrite wrap64_id by (unfold in_int64, min_int64, max_int64 in *; lia).
    reflexivity. }
  assert (Hb1 : buf d1 = slice_from (buf d) (len b1)) by reflexivity.
  assert (Hl1 : len (buf d1) = len (buf d) - len b1)
    by (rewrite Hb1; apply len_slice_from; lia).
  assert (R2 : Read f2 b2 d1 =
               Done (slice_to (slice_from (buf d) (len b1)) (len b2), len b2, None) d2).
  { rewrite Read_buffered.
    - rewrite Hl1. rewrite Z.min_l by lia. rewrite slice_from_all, app_nil_r.
      rewrite Hb1. unfold add64. simpl.
      rewrite wrap64_id by (unfold in_int64, min_int64, max_int64 in *; lia).
      f_equal. unfold d2, d1, slice_from.
      rewrite skipn_skipn.
      replace (Z.to_nat (len b2) + Z.to_nat (len b1))%nat with (Z.to_nat (len b1 + len b2))
        by lia.
      replace (pos d + len b1 + len b2) with (pos d + (len b1 + len b2)) by lia.
      destruct d. reflexivity.
    - destruct d; exact Hm.
    - intros E. apply len_zero_iff in E. lia. }
  assert (R3 : Read f3 (b1 ++ b2) d =
               Done (slice_to (buf d) (len b1 + len b2), len b1 + len b2, None) d2).
  { rewrite Read_buffered by assumption.
    rewrite len_app. rewrite Z.min_l by lia.
    rewrite <- len_app. rewrite slice_from_all, app_nil_r. rewrite len_app.
    unfold add64. rewrite wrap64_id by (unfold in_int64, min_int64, max_int64 in *; lia).
    reflexivity. }
  repeat split; try assumption.
  unfold slice_to, slice_from.
  rewrite Z2Nat.inj_add by lia.
  rewrite firstn_plus. reflexivity.
Qed.

(** ** More on [SeekPercent] *)

Lemma preread_frames (n : nat) :
  forall (frameIndex : Z) (d d' : Decoder),
    (1 <= n)%nat -> 0 <= frameIndex -> frameIndex + Z.of_nat n <= max_int64 ->
    preread n frameIndex d = Done None d' ->
    exists f s',
      frames_from n (volume d) (frame d) (src d) = Some (f, s') /\
      d' = set_buf (set_frame (set_src d s') (Some (Decode_frame f (volume d))))
                   (Decode_bytes f (volume d)).
Proof.
  induction n as [|n IH]; intros fi d d' Hn Hfi Hmax H; [lia|].
  simpl in H. step H.
  assert (E : (0 <=? fi) = true) by (apply Z.leb_le; lia).
  rewrite E in Hstep. step Hstep.
  destruct x as [e|]; [inv H|].
  apply readFrame_Done_None in Hstep. destruct Hstep as (f & p & s & Hr & ->).
  simpl in Hr.
  destruct n as [|m].
  - simpl in H. inv H. exists f, s. simpl. rewrite Hr.
    split; [reflexivity|]. destruct d; reflexivity.
  - apply IH in H.
    + destruct H as (f' & s' & Hf & ->). simpl in Hf.
      exists f', s'. split.
      * change (frames_from (S (S m)) (volume d) (frame d) (src d))
          with (match frame_Read (frame d) (src d) with
                | Ext (Some f, _, None) s' =>
                    frames_from (S m) (volume d) (Some (Decode_frame f (volume d))) s'
                | _ => None
                end).
        rewrite Hr. exact Hf.
      * destruct d; reflexivity.
    + lia.
    + unfold add64. rewrite wrap64_id by (unfold in_int64, min_int64, max_int64 in *; lia). lia.
    + unfold add64. rewrite wrap64_id by (unfold in_int64, min_int64, max_int64 in *; lia). lia.
Qed.

(** What a successful [SeekPercent] on frame [t >= 1] has decoded: the
    source is moved to frame [k = max(0, t - 4)], the frame state is
    cleared, the [min(4, t)] frames [k .. t - 1] are read in a row, and
    only the output of the last one, frame [t - 1], is kept: the buffer
    holds exactly that frame's bytes, while the position is the offset of
    frame [k]. *)
Theorem SeekPercent_keeps_last_lookback_frame (w : float64) (d d' : Decoder) (p : Z) :
  SeekPercent w d = Done (p, None) d' ->
  1 <= fractionFrame (len (frameStarts d)) w ->
  len (frameStarts d) + 4 <= max_int64 ->
  let t := fractionFrame (len (frameStarts d)) w in
  let k := Z.max 0 (t - 4) in
  exists start x0 s0 f s',
    nth_error (frameStarts d) (Z.to_nat k) = Some start /\
    source_Seek start io_SeekStart (src d) = Ext (x0, None) s0 /\
    frames_from (Z.to_nat (Z.min 4 t)) (volume d) None s0 = Some (f, s') /\
    d' = set_buf (set_frame (set_src (set_pos d (mul64 (bytesPerFrame d) k)) s')
                            (Some (Decode_frame f (volume d))))
                 (Decode_bytes f (volume d)).
Proof.
  intros H Ht Hlen. cbv zeta.
  apply SeekPercent_success in H.
  destruct H as (_ & _ & Hm & H). cbv zeta in H.
  pose proof (int64_of_f64_range (f64_mul (f64_of_int (len (frameStarts d))) w)) as Hr.
  fold (fractionFrame (len (frameStarts d)) w) in Hr.
  remember (fractionFrame (len (frameStarts d)) w) as t eqn:Et.
  destruct H as (k' & off & start & x0 & s0 & d1 & El & Hk & Hn & Hs & Hp & _ & _ & ->).
  unfold sub64 in El.
  rewrite wrap64_id in El by (unfold in_int64, min_int64, max_int64 in *; lia).
  rewrite lookback_spec in El by (unfold in_int64, min_int64, max_int64 in *; lia).
  assert (El' : (k', off) = (Z.max 0 (t - 4), Z.min 4 t))
    by (rewrite <- El; f_equal; lia).
  clear El. injection El' as -> ->.
  apply preread_frames in Hp; try lia.
  destruct Hp as (f & s' & Hf & ->).
  exists start, x0, s0, f, s'.
  split; [exact Hn|]. split; [exact Hs|]. split.
  - destruct d. exact Hf.
  - unfold Unlock. destruct d; simpl in *; subst. reflexivity.
Qed.

(** A fraction below 0 or above 1 is refused with an error before the
    mutex is taken and before the decoder is touched: even with the mutex
    held the call returns at once. *)
Theorem SeekPercent_rejects_out_of_range (w : float64) (d : Decoder) :
  (f64_lt w f64_zero = true ->
   SeekPercent w d =
   Done (0, Some (errors_New "mp3: cannot seek to negative position")) d) /\
  (f64_lt w f64_zero = false -> f64_lt f64_one w = true ->
   SeekPercent w d =
   Done (0, Some (errors_New "mp3: cannot seek beyond stream end")) d).
Proof.
  split.
  - intros H. unfold SeekPercent. rewrite H. reflexivity.
  - intros H0 H1. unfold SeekPercent. rewrite H0, H1. reflexivity.
Qed.

(** ** The volume *)

Lemma f32_one_eq : f32_one = S754_finite false 8388608 (-23).
Proof. vm_compute. reflexivity. Qed.

Lemma SFltb_false_SFleb (m m0 : positive) (e e0 : Z) :
  SFltb (S754_finite false m0 e0) (S754_finite false m e) = false ->
  SFleb (S754_finite false m e) (S754_finite false m0 e0) = true.
Proof.
  unfold SFltb, SFleb, SFcompare.
  rewrite (Z.compare_antisym e e0).
  destruct (e ?= e0) eqn:E; simpl; try reflexivity; try discriminate.
  change (Pos.compare_cont Eq m0 m) with (Pos.compare m0 m).
  change (Pos.compare_cont Eq m m0) with (Pos.compare m m0).
  rewrite (Pos.compare_antisym m m0).
  destruct (Pos.compare m m0); simpl; try reflexivity; discriminate.
Qed.

Lemma f32_in_range (v : float32) :
  v <> S754_nan ->
  f32_lt f32_one v = false -> f32_lt v f32_zero = false ->
  SFleb f32_zero v = true /\ SFleb v f32_one = true.
Proof.
  rewrite f32_one_eq. unfold f32_zero, f32_lt.
  intros Hn H1 H0.
  destruct v as [s|s| |s m e].
  - split; reflexivity.
  - destruct s; discriminate.
  - contradiction.
  - destruct s; [discriminate|].
    split; [reflexivity|].
    apply SFltb_false_SFleb. exact H1.
Qed.

Lemma f32_below_zero_not_above_one (v : float32) :
  f32_lt v f32_zero = true -> f32_lt f32_one v = false.
Proof.
  rewrite f32_one_eq. unfold f32_zero, f32_lt.
  destruct v as [s|s| |s m e]; try discriminate.
  - destruct s; [reflexivity | discriminate].
  - destruct s; [reflexivity | discriminate].
Qed.

(** [SetVolume] clamps: an argument above 1 stores 1, an argument below 0
    stores 0, and any other argument is stored as it is, so that
    [GetVolume] afterwards returns a value between 0 and 1, except for a
    NaN, which both tests let through; and nothing but the volume is
    changed (bytes already decoded are not rescaled). *)
Theorem SetVolume_clamps (v : float32) (d : Decoder) :
  exists c,
    SetVolume v d = Done tt (set_volume d c) /\
    GetVolume (set_volume d c) = Done c (set_volume d c) /\
    (f32_lt f32_one v = true -> c = f32_one) /\
    (f32_lt v f32_zero = true -> c = f32_zero) /\
    (f32_lt f32_one v = false -> f32_lt v f32_zero = false -> c = v) /\
    (v <> S754_nan -> SFleb f32_zero c = true /\ SFleb c f32_one = true) /\
    (v = S754_nan -> c = S754_nan).
Proof.
  unfold SetVolume, modify.
  destruct (f32_lt f32_one v) eqn:H1; [|destruct (f32_lt v f32_zero) eqn:H0].
  - exists f32_one. split; [reflexivity|]. split; [destruct d; reflexivity|].
    split; [reflexivity|].
    split; [intros H0; apply f32_below_zero_not_above_one in H0; congruence|].
    split; [intros E; discriminate E|].
    split; [intros _; split; reflexivity|].
    intros ->; discriminate H1.
  - exists f32_zero. split; [reflexivity|]. split; [destruct d; reflexivity|].
    split; [intros E; discriminate E|].
    split; [reflexivity|].
    split; [intros _ E; discriminate E|].
    split; [intros _; split; reflexivity|].
    intros ->; discriminate H0.
  - exists v. split; [reflexivity|]. split; [destruct d; reflexivity|].
    split; [intros E; discriminate E|].
    split; [intros E; discriminate E|].
    split; [reflexivity|].
    split; [intros Hn; apply f32_in_range; assumption|].
    intros E; exact E.
Qed.

(** ** More on [NewDecoder] and the frame index *)



Lemma scan_frames_fields (fuel : nat) :
  forall (l : Z) (d d' : Decoder) (r : Z + error),
    scan_frames fuel l d = Done r d' ->
    sampleRate d' = sampleRate d /\ length d' = length d /\ pos d' = pos d /\
    mux d' = mux d.
Proof.
  induction fuel as [|fuel IH]; intros l d d' r H; simpl in H; [discriminate|].
  repeat step H; simpl in *; try (repeat split; reflexivity).
  apply IH in H. simpl in H. exact H.
Qed.

Lemma ensureFrameStartsAndLength_fields (fuel : nat) (d d' : Decoder) (e : option error) :
  ensureFrameStartsAndLength fuel d = Done e d' ->
  sampleRate d' = sampleRate d /\ pos d' = pos d /\ mux d' = mux d.
Proof.
  unfold ensureFrameStartsAndLength. intros H.
  repeat step H; simpl in *; try (repeat split; reflexivity).
  all: apply scan_frames_fields in Hstep; simpl in Hstep; tauto.
Qed.


(** The decoder [NewDecoder] returns stands at position 0 with the mutex
    free, holds the first frame of the stream as its frame state, and its
    sample rate is the one that frame reports. *)
Theorem NewDecoder_initial_state (fuel : nat) (r : Reader) (d : Decoder) :
  NewDecoder fuel r = Done None d ->
  exists s0 f p s1,
    source_skipTags (source_new r) = Ext None s0 /\
    frame_Read None s0 = Ext (Some f, p, None) s1 /\
    frame d = Some (Decode_frame f f32_zero) /\
    frame_SamplingFrequency (Decode_frame f f32_zero) = (sampleRate d, None) /\
    SampleRate d = Done (sampleRate d) d /\
    pos d = 0 /\ mux d = false /\
    Seek 0 io_SeekCurrent d = Done (0, None) d.
Proof.
  unfold NewDecoder. intros H.
  repeat step H; simpl in *; frames.
  pose proof (ensureFrameStartsAndLength_output _ _ _ _ Hstep0) as (_ & Hfr & _).
  pose proof (ensureFrameStartsAndLength_fields _ _ _ _ Hstep0) as (Hsr & Hp & Hm).
  simpl in *.
  do 4 eexists.
  split; [eassumption|]. split; [eassumption|].
  split; [exact Hfr|].
  split; [injection Heqo as <-; rewrite Hsr; exact Heqp|].
  split; [reflexivity|]. split; [exact Hp|]. split; [exact Hm|].
  pose proof (Seek_query (set_volume x0 f32_one)) as Q.
  change (pos (set_volume x0 f32_one)) with (pos x0) in Q.
  rewrite Hp in Q. exact Q.
Qed.


(** [NewDecoder] fails, and returns no decoder, when the tags cannot be
    skipped (with that error) and when the first frame cannot be read:
    with [io.EOF] for a stream that ends before or within its first frame,
    with the frame's error otherwise. *)
Theorem NewDecoder_fails_without_first_frame (fuel : nat) (r : Reader) :
  (forall e s0, source_skipTags (source_new r) = Ext (Some e) s0 ->
     exists d, NewDecoder fuel r = Done (Some e) d) /\
  (forall s0 fr p e s1,
     source_skipTags (source_new r) = Ext None s0 ->
     frame_Read None s0 = Ext (fr, p, Some e) s1 ->
     exists d,
       NewDecoder fuel r =
       Done (Some (if is_io_EOF e || is_UnexpectedEOF e then io_EOF else e)) d).
Proof.
  split.
  - intros e s0 Hs. unfold NewDecoder, bind, on_source. simpl. rewrite Hs.
    eexists. reflexivity.
  - intros s0 fr p e s1 Hs Hf. unfold NewDecoder, bind, on_source. simpl. rewrite Hs.
    rewrite readFrame_eq. simpl. rewrite Hf. destruct fr; eexists; reflexivity.
Qed.

End Properties.

Import Toy.

(** * The properties on the concrete stream *)

Example fractionFrame_half_of_ten : fractionFrame 10 half = 5.
Proof. vm_compute. reflexivity. Qed.

Example fractionFrame_tenth_of_ten : fractionFrame 10 tenth = 1.
Proof. vm_compute. reflexivity. Qed.

Example fractions_are_binary64 :
  valid_binary 53 1024 half = true /\ valid_binary 53 1024 tenth = true /\
  valid_binary 53 1024 third = true /\ valid_binary 53 1024 f64_one = true.
Proof. vm_compute. repeat split. Qed.

Example half_is_a_half : (f64_to_Q half == 1 # 2)%Q.
Proof. vm_compute. reflexivity. Qed.

Example NewDecoder_file10 : NewDecoder 64 file10 = Done None (opened file10).
Proof. vm_compute. reflexivity. Qed.

Example NewDecoder_pipe3 : NewDecoder 64 pipe3 = Done None (opened pipe3).
Proof. vm_compute. reflexivity. Qed.

(** C1, on the ten-frame stream at 0.5. The fraction designates frame
    [floor(10 * 0.5) = 5], which starts at byte 20; the call returns 4, the
    offset of frame 1, and leaves the position there, while the buffer
    holds the bytes of frame 4, which the next [Read] hands out. *)
Lemma SeekPercent_returns_lookback_frame_file10 :
  SeekPercent half (opened file10) =
    Done (4, None) (final (SeekPercent half (opened file10))) /\
  0 <= fractionFrame (len (frameStarts (opened file10))) half /\
  0 <= bytesPerFrame (opened file10) /\
  bytesPerFrame (opened file10) * len (frameStarts (opened file10)) <= max_int64 /\
  4 = bytesPerFrame (opened file10) *
      Z.max 0 (fractionFrame (len (frameStarts (opened file10))) half - 4) /\
  (bytesPerFrame (opened file10) | 4) /\
  4 < bytesPerFrame (opened file10) * fractionFrame (len (frameStarts (opened file10))) half /\
  Qfloor (10 * f64_to_Q half) = 5 /\
  fractionFrame (len (frameStarts (opened file10))) half = 5 /\
  bytesPerFrame (opened file10) * 5 = 20 /\
  pos (final (SeekPercent half (opened file10))) = 4 /\
  buf (final (SeekPercent half (opened file10))) = [sample 16; sample 17; sample 18; sample 19] /\
  returned (Read 0 room6 (final (SeekPercent half (opened file10)))) =
    Some ([sample 16; sample 17; sample 18; sample 19; xff; xff], 4, None).
Proof.
  assert (H : SeekPercent half (opened file10) =
              Done (4, None) (final (SeekPercent half (opened file10))))
    by (vm_compute; reflexivity).
  assert (Ht : 0 <= fractionFrame (len (frameStarts (opened file10))) half)
    by (vm_compute; discriminate).
  assert (Hb : 0 <= bytesPerFrame (opened file10)) by (vm_compute; discriminate).
  assert (Hl : bytesPerFrame (opened file10) * len (frameStarts (opened file10)) <= max_int64)
    by (vm_compute; discriminate).
  assert (Ht1 : 1 <= fractionFrame (len (frameStarts (opened file10))) half)
    by (vm_compute; discriminate).
  assert (Hb1 : 0 < bytesPerFrame (opened file10)) by (vm_compute; reflexivity).
  assert (Hq : Qfloor (10 * f64_to_Q half) = 5) by (vm_compute; reflexivity).
  assert (Hf : fractionFrame (len (frameStarts (opened file10))) half = 5)
    by (vm_compute; reflexivity).
  assert (H20 : bytesPerFrame (opened file10) * 5 = 20) by (vm_compute; reflexivity).
  assert (Hpos : pos (final (SeekPercent half (opened file10))) = 4)
    by (vm_compute; reflexivity).
  assert (Hbuf : buf (final (SeekPercent half (opened file10))) =
                 [sample 16; sample 17; sample 18; sample 19]) by (vm_compute; reflexivity).
  assert (Hrd : returned (Read 0 room6 (final (SeekPercent half (opened file10)))) =
                Some ([sample 16; sample 17; sample 18; sample 19; xff; xff], 4, None))
    by (vm_compute; reflexivity).
  pose proof (SeekPercent_returns_lookback_frame half (opened file10) _ 4 H Ht Hb Hl) as T.
  cbv zeta in T. destruct T as (_ & _ & _ & Hp & _ & Hd & Hlt).
  exact (conj H (conj Ht (conj Hb (conj Hl (conj Hp (conj Hd (conj (Hlt Ht1 Hb1)
    (conj Hq (conj Hf (conj H20 (conj Hpos (conj Hbuf Hrd)))))))))))).
Defined.

(** C2, on the three-frame stream behind a reader that cannot seek. *)
Lemma Seek_end_on_pipe3_panics :
  length (opened pipe3) = invalidLength /\
  bytesPerFrame (opened pipe3) = 0 /\
  Seek 100 io_SeekEnd (opened pipe3) =
  Stop (panic "runtime error: integer divide by zero")
       (set_frame (set_buf (set_pos (opened pipe3) (add64 invalidLength 100)) []) None).
Proof.
  assert (Hl : length (opened pipe3) = invalidLength) by (vm_compute; reflexivity).
  assert (Hb : bytesPerFrame (opened pipe3) = 0) by (vm_compute; reflexivity).
  exact (conj Hl (conj Hb (Seek_end_unknown_length_panics (opened pipe3) 100 Hl Hb))).
Defined.

(** C3, on the three-frame stream behind a reader that cannot seek. *)
Lemma SeekPercent_on_pipe3_panics :
  mux (opened pipe3) = false /\
  frameStarts (opened pipe3) = [] /\
  f64_lt half f64_zero = false /\ f64_lt f64_one half = false /\
  exists d',
    SeekPercent half (opened pipe3) = Stop (panic "runtime error: index out of range") d' /\
    frame d' = None /\ buf d' = buf (opened pipe3) /\ src d' = src (opened pipe3).
Proof.
  assert (Hm : mux (opened pipe3) = false) by (vm_compute; reflexivity).
  assert (Hf : frameStarts (opened pipe3) = []) by (vm_compute; reflexivity).
  assert (G0 : f64_lt half f64_zero = false) by (vm_compute; reflexivity).
  assert (G1 : f64_lt f64_one half = false) by (vm_compute; reflexivity).
  exact (conj Hm (conj Hf (conj G0 (conj G1
    (SeekPercent_without_index_panics half (opened pipe3) Hm Hf G0 G1))))).
Defined.

(** C4, on the ten-frame stream: a seek to byte 17, in frame 4. *)
Lemma Seek_lookback_then_target_file10 :
  ~ (17 = 0 /\ io_SeekStart = io_SeekCurrent) /\
  Seek 17 io_SeekStart (opened file10) = Done (17, None) landed17 /\
  0 <= 17 < length (opened file10) /\
  length (opened file10) <= max_int64 /\
  0 < bytesPerFrame (opened file10) /\
  (forall fr, len (Decode_bytes fr (volume (opened file10))) = bytesPerFrame (opened file10)) /\
  (exists fr2, buf landed17 =
     slice_from (Decode_bytes fr2 (volume (opened file10))) (17 mod bytesPerFrame (opened file10))) /\
  buf landed17 = [sample 17; sample 18; sample 19].
Proof.
  assert (Hq : ~ (17 = 0 /\ io_SeekStart = io_SeekCurrent)) by (intros [E _]; discriminate E).
  assert (H : Seek 17 io_SeekStart (opened file10) = Done (17, None) landed17)
    by (vm_compute; reflexivity).
  assert (Ht : 0 <= 17 < length (opened file10)) by (vm_compute; split; [discriminate|reflexivity]).
  assert (Hl : length (opened file10) <= max_int64) by (vm_compute; discriminate).
  assert (Hb : 0 < bytesPerFrame (opened file10)) by (vm_compute; reflexivity).
  assert (Hf : forall fr, len (Decode_bytes fr (volume (opened file10))) = bytesPerFrame (opened file10))
    by (intros fr; vm_compute; reflexivity).
  assert (Hbuf : buf landed17 = [sample 17; sample 18; sample 19]) by (vm_compute; reflexivity).
  pose proof (Seek_lookback_then_target (opened file10) landed17 17 io_SeekStart 17
                Hq H Ht Hl Hb Hf) as T.
  cbv zeta in T. destruct T as [Tpos _].
  assert (Hpos : 0 < 17 / bytesPerFrame (opened file10)) by (vm_compute; reflexivity).
  destruct (Tpos Hpos) as (start & x0 & s0 & fr1 & p1 & s1 & fr2 & p2 & s2 & _ & _ & _ & _ & E).
  assert (Hex : exists fr2, buf landed17 =
     slice_from (Decode_bytes fr2 (volume (opened file10))) (17 mod bytesPerFrame (opened file10))).
  { exists fr2. rewrite E. destruct (opened file10). reflexivity. }
  exact (conj Hq (conj H (conj Ht (conj Hl (conj Hb (conj Hf (conj Hex Hbuf))))))).
Defined.

(** C5, counterexample. A [Read] into an empty slice succeeds with 0
    bytes and the position stays where it was: a successful read that
    does not strictly increase the position. *)
Lemma Read_empty_slice_keeps_position :
  Read 0 [] (opened file10) = Done ([], 0, None) (opened file10) /\
  buf (opened file10) = [x00; x00; x00; x00] /\
  pos (final (Read 0 [] (opened file10))) = pos (opened file10).
Proof. vm_compute. repeat split. Qed.

(** C5, on the ten-frame stream: four buffered bytes into a slice of six. *)
Lemma Read_contract_file10 :
  mux (opened file10) = false /\
  min_int64 <= pos (opened file10) /\
  pos (opened file10) + len (buf (opened file10)) <= max_int64 /\
  buf (opened file10) <> [] /\
  Read 0 room6 (opened file10) =
  Done ([x00; x00; x00; x00; xff; xff], 4, None) drained /\
  pos (opened file10) < pos (opened file10) + Z.min (len room6) (len (buf (opened file10))).
Proof.
  assert (Hm : mux (opened file10) = false) by (vm_compute; reflexivity).
  assert (Hlo : min_int64 <= pos (opened file10)) by (vm_compute; discriminate).
  assert (Hhi : pos (opened file10) + len (buf (opened file10)) <= max_int64)
    by (vm_compute; discriminate).
  assert (Hb : buf (opened file10) <> []) by (vm_compute; discriminate).
  assert (Hr : room6 <> []) by discriminate.
  destruct (Read_contract 0 room6 (opened file10) Hm Hlo Hhi) as [_ T].
  destruct (T Hb) as (E & Hinc & _).
  assert (E' : Read 0 room6 (opened file10) =
               Done ([x00; x00; x00; x00; xff; xff], 4, None) drained).
  { rewrite E. vm_compute. reflexivity. }
  exact (conj Hm (conj Hlo (conj Hhi (conj Hb (conj E' (Hinc Hr)))))).
Defined.

(** C7, on the ten-frame stream. *)
Lemma Seek_start_then_query_file10 :
  Seek 17 io_SeekStart (opened file10) = Done (17, None) landed17 /\
  Seek 0 io_SeekCurrent landed17 = Done (17, None) landed17.
Proof.
  assert (H : Seek 17 io_SeekStart (opened file10) = Done (17, None) landed17)
    by (vm_compute; reflexivity).
  exact (conj H (proj2 (Seek_start_then_query_round_trip (opened file10) landed17 17 17 H))).
Defined.

(** On the ten-frame stream (40 bytes), [Seek(x, io.SeekStart)] succeeds
    and returns [x] for each [x] in [0, 40). *)
Example Seek_start_succeeds_on_file10 :
  forallb (fun x => match returned (Seek x io_SeekStart (opened file10)) with
                    | Some (r, None) => r =? x
                    | _ => false
                    end)
          (map Z.of_nat (seq 0 40)) = true.
Proof. vm_compute. reflexivity. Qed.

(** C8, on the ten-frame stream with the mutex held: [Read] and
    [SeekPercent] wait, [Seek] moves the decoder to byte 17. *)
Lemma Seek_takes_no_lock_file10 :
  mux held = true /\
  Read 1 room6 held = Stop blocked held /\
  SeekPercent half held = Stop blocked held /\
  Seek 17 io_SeekStart held <> Stop blocked held /\
  Seek 17 io_SeekStart held = Done (17, None) (set_mux landed17 true).
Proof.
  assert (Hm : mux held = true) by (vm_compute; reflexivity).
  assert (G0 : f64_lt half f64_zero = false) by (vm_compute; reflexivity).
  assert (G1 : f64_lt f64_one half = false) by (vm_compute; reflexivity).
  assert (Hs : Seek 17 io_SeekStart held = Done (17, None) (set_mux landed17 true))
    by (vm_compute; reflexivity).
  destruct (Seek_takes_no_lock held Hm) as (TR & TP & TS).
  exact (conj Hm (conj (TR 1%nat room6) (conj (TP half G0 G1)
          (conj (TS 17 io_SeekStart held) Hs)))).
Defined.

(** C9, on the ten-frame stream: the buffered bytes are silence, though
    frame 0 at volume 1 decodes to the bytes 0, 1, 2, 3. *)
Lemma NewDecoder_first_frame_file10 :
  NewDecoder 64 file10 = Done None (opened file10) /\
  buf (opened file10) = [x00; x00; x00; x00] /\
  Decode_bytes 0 f32_one = [x00; x01; x02; x03] /\
  (exists f, buf (opened file10) = Decode_bytes f f32_zero) /\
  volume (opened file10) = f32_one.
Proof.
  assert (H : NewDecoder 64 file10 = Done None (opened file10)) by (vm_compute; reflexivity).
  assert (Hz : buf (opened file10) = [x00; x00; x00; x00]) by (vm_compute; reflexivity).
  assert (Ho : Decode_bytes 0 f32_one = [x00; x01; x02; x03]) by (vm_compute; reflexivity).
  destruct (NewDecoder_first_frame_at_volume_zero 64 file10 (opened file10) H)
    as (s0 & f & p & s1 & _ & _ & Hb & Hv & _).
  exact (conj H (conj Hz (conj Ho (conj (ex_intro _ f Hb) Hv)))).
Defined.

(** C10, counterexample. On the three-frame stream, with the [float64]
    nearest to 1/3, which lies below 1/3: the exact product with the frame
    count is below 1 (its floor is 0), but in [float64] it rounds to 1.0,
    so the code is on frame 1, keeps a lookback of one frame and decodes
    frame 0 into the emptied buffer: the four bytes of silence waiting
    there are replaced. *)
Lemma SeekPercent_below_a_third_decodes :
  (f64_to_Q third < 1 # 3)%Q /\
  Qfloor (3 * f64_to_Q third) = 0 /\
  fractionFrame (len (frameStarts (opened file3))) third = 1 /\
  buf (opened file3) = [x00; x00; x00; x00] /\
  returned (SeekPercent third (opened file3)) = Some (0, None) /\
  frame (final (SeekPercent third (opened file3))) = Some 0 /\
  buf (final (SeekPercent third (opened file3))) = [x00; x01; x02; x03].
Proof. vm_compute. repeat split. Qed.

(** C10, on the ten-frame stream after the seek to byte 17: the three
    bytes left of frame 4 are waiting in the buffer; [SeekPercent(0)]
    reports position 0 and the next [Read] hands out those three bytes. *)
Lemma SeekPercent_zero_after_seek_file10 :
  mux landed17 = false /\
  f64_lt f64_zero f64_zero = false /\ f64_lt f64_one f64_zero = false /\
  fractionFrame (len (frameStarts landed17)) f64_zero = 0 /\
  len (buf landed17) <= max_int64 /\
  buf landed17 = [sample 17; sample 18; sample 19] /\
  buf (final (SeekPercent f64_zero landed17)) = buf landed17 /\
  returned (SeekPercent f64_zero landed17) = Some (0, None) /\
  returned (Read 0 room6 (final (SeekPercent f64_zero landed17))) =
  Some ([sample 17; sample 18; sample 19; xff; xff; xff], 3, None).
Proof.
  assert (Hm : mux landed17 = false) by (vm_compute; reflexivity).
  assert (G0 : f64_lt f64_zero f64_zero = false) by (vm_compute; reflexivity).
  assert (G1 : f64_lt f64_one f64_zero = false) by (vm_compute; reflexivity).
  assert (Ht : fractionFrame (len (frameStarts landed17)) f64_zero = 0)
    by (vm_compute; reflexivity).
  assert (Hl : len (buf landed17) <= max_int64) by (vm_compute; discriminate).
  assert (Hb : buf landed17 = [sample 17; sample 18; sample 19]) by (vm_compute; reflexivity).
  assert (Hs : returned (SeekPercent f64_zero landed17) = Some (0, None))
    by (vm_compute; reflexivity).
  assert (Hr : returned (Read 0 room6 (final (SeekPercent f64_zero landed17))) =
               Some ([sample 17; sample 18; sample 19; xff; xff; xff], 3, None))
    by (vm_compute; reflexivity).
  destruct (SeekPercent_frame_zero_keeps_buffer f64_zero landed17 Hm G0 G1 Ht Hl) as (_ & Tb & _).
  exact (conj Hm (conj G0 (conj G1 (conj Ht (conj Hl (conj Hb (conj Tb (conj Hs Hr)))))))).
Defined.

(** * The further properties on the concrete stream *)

(** A seek to byte 100 of the ten-frame stream (40 bytes) panics on the
    frame index, and has moved the position to 100. *)
Lemma Seek_moves_position_file10 :
  ~ (100 = 0 /\ io_SeekStart = io_SeekCurrent) /\
  seek_target (opened file10) 100 io_SeekStart = Some 100 /\
  (exists d', Seek 100 io_SeekStart (opened file10) =
              Stop (panic "runtime error: index out of range") d') /\
  same_cursor (set_pos (opened file10) 100) (final (Seek 100 io_SeekStart (opened file10))) /\
  pos (final (Seek 100 io_SeekStart (opened file10))) = 100.
Proof.
  assert (Hq : ~ (100 = 0 /\ io_SeekStart = io_SeekCurrent)) by (intros [E _]; discriminate E).
  assert (Ht : seek_target (opened file10) 100 io_SeekStart = Some 100) by reflexivity.
  assert (Hp : exists d', Seek 100 io_SeekStart (opened file10) =
                          Stop (panic "runtime error: index out of range") d')
    by (eexists; vm_compute; reflexivity).
  pose proof (Seek_moves_position_whatever_happens (opened file10) 100 io_SeekStart 100 Hq Ht) as T.
  assert (Hpos : pos (final (Seek 100 io_SeekStart (opened file10))) = 100)
    by (destruct T as (_ & _ & _ & E & _); exact E).
  exact (conj Hq (conj Ht (conj Hp (conj T Hpos)))).
Defined.

(** The half-way [SeekPercent] on the ten-frame stream. *)
Lemma SeekPercent_outcome_file10 :
  mux (opened file10) = false /\
  f64_lt half f64_zero = false /\ f64_lt f64_one half = false /\
  0 <= fractionFrame (len (frameStarts (opened file10))) half /\
  same_cursor
    (set_pos (opened file10)
       (mul64 (bytesPerFrame (opened file10))
          (Z.max 0 (fractionFrame (len (frameStarts (opened file10))) half - 4))))
    (final (SeekPercent half (opened file10))) /\
  mux (final (SeekPercent half (opened file10))) = false.
Proof.
  assert (Hm : mux (opened file10) = false) by (vm_compute; reflexivity).
  assert (G0 : f64_lt half f64_zero = false) by (vm_compute; reflexivity).
  assert (G1 : f64_lt f64_one half = false) by (vm_compute; reflexivity).
  assert (Ht : 0 <= fractionFrame (len (frameStarts (opened file10))) half)
    by (vm_compute; discriminate).
  pose proof (SeekPercent_outcome half (opened file10) Hm G0 G1 Ht) as T.
  cbv zeta in T.
  assert (Hf : mux (final (SeekPercent half (opened file10))) = false)
    by (vm_compute; reflexivity).
  exact (conj Hm (conj G0 (conj G1 (conj Ht (conj T Hf))))).
Defined.

(** A [Read] of six bytes after the first four were read: frame 1 is
    decoded, its four bytes are handed out, the position moves from 4 to 8. *)
Lemma Read_outcome_drained :
  mux drained = false /\
  returned (Read 1 room6 drained) = Some ([x04; x05; x06; x07; xff; xff], 4, None) /\
  same_cursor (set_pos drained (add64 (pos drained) 4)) (final (Read 1 room6 drained)) /\
  pos (final (Read 1 room6 drained)) = 8.
Proof.
  assert (Hm : mux drained = false) by (vm_compute; reflexivity).
  assert (E : Read 1 room6 drained =
              Done ([x04; x05; x06; x07; xff; xff], 4, None) (final (Read 1 room6 drained)))
    by (vm_compute; reflexivity).
  assert (Hr : returned (Read 1 room6 drained) = Some ([x04; x05; x06; x07; xff; xff], 4, None))
    by (vm_compute; reflexivity).
  assert (Hp : pos (final (Read 1 room6 drained)) = 8) by (vm_compute; reflexivity).
  pose proof (Read_outcome 1 room6 drained Hm) as T.
  rewrite E in T.
  exact (conj Hm (conj Hr (conj T Hp))).
Defined.

(** [Seek] with whence 3. *)
Lemma Seek_invalid_whence_file10 :
  3 <> io_SeekStart /\ 3 <> io_SeekCurrent /\ 3 <> io_SeekEnd /\
  Seek 17 3 (opened file10) =
  Done (0, Some (errors_New "mp3: invalid whence")) (opened file10).
Proof.
  assert (H0 : 3 <> io_SeekStart) by discriminate.
  assert (H1 : 3 <> io_SeekCurrent) by discriminate.
  assert (H2 : 3 <> io_SeekEnd) by discriminate.
  exact (conj H0 (conj H1 (conj H2 (Seek_invalid_whence (opened file10) 17 3 H0 H1 H2)))).
Defined.

(** The seek to byte 17 of the ten-frame stream lies within its 40 bytes. *)
Lemma Seek_success_within_index_file10 :
  ~ (17 = 0 /\ io_SeekStart = io_SeekCurrent) /\
  Seek 17 io_SeekStart (opened file10) = Done (17, None) landed17 /\
  in_int64 17 /\
  0 < bytesPerFrame (opened file10) /\
  0 <= 17 < bytesPerFrame (opened file10) * (len (frameStarts (opened file10)) + 1).
Proof.
  assert (Hq : ~ (17 = 0 /\ io_SeekStart = io_SeekCurrent)) by (intros [E _]; discriminate E).
  assert (H : Seek 17 io_SeekStart (opened file10) = Done (17, None) landed17)
    by (vm_compute; reflexivity).
  assert (Hi : in_int64 17) by (vm_compute; split; discriminate).
  assert (Hb : 0 < bytesPerFrame (opened file10)) by (vm_compute; reflexivity).
  exact (conj Hq (conj H (conj Hi (conj Hb
    (Seek_success_within_index (opened file10) landed17 17 io_SeekStart 17 Hq H Hi Hb))))).
Defined.

(** After the seek to byte 17 a [Read] of six bytes hands out the bytes
    17, 18 and 19, the rest of frame 4, and the position is 20. *)
Lemma Seek_then_Read_file10 :
  ~ (17 = 0 /\ io_SeekStart = io_SeekCurrent) /\
  Seek 17 io_SeekStart (opened file10) = Done (17, None) landed17 /\
  mux (opened file10) = false /\
  17 + bytesPerFrame (opened file10) <= max_int64 /\
  0 < bytesPerFrame (opened file10) /\
  (forall fr, len (Decode_bytes fr (volume (opened file10))) = bytesPerFrame (opened file10)) /\
  Read 0 room6 landed17 =
  Done ([sample 17; sample 18; sample 19; xff; xff; xff], 3, None)
       (set_pos (set_buf landed17 []) 20).
Proof.
  assert (Hq : ~ (17 = 0 /\ io_SeekStart = io_SeekCurrent)) by (intros [E _]; discriminate E).
  assert (H : Seek 17 io_SeekStart (opened file10) = Done (17, None) landed17)
    by (vm_compute; reflexivity).
  assert (Hm : mux (opened file10) = false) by (vm_compute; reflexivity).
  assert (H0 : 0 <= 17) by discriminate.
  assert (Hhi : 17 + bytesPerFrame (opened file10) <= max_int64) by (vm_compute; discriminate).
  assert (Hb : 0 < bytesPerFrame (opened file10)) by (vm_compute; reflexivity).
  assert (Hf : forall fr, len (Decode_bytes fr (volume (opened file10))) = bytesPerFrame (opened file10))
    by (intros fr; vm_compute; reflexivity).
  destruct (Seek_then_Read (opened file10) landed17 17 io_SeekStart 17 Hq H Hm H0 Hhi Hb Hf)
    as (fr & T).
  cbv zeta in T. destruct T as (Eb & _ & Tr).
  assert (Hbuf : buf landed17 = [sample 17; sample 18; sample 19]) by (vm_compute; reflexivity).
  pose proof (Tr 0%nat room6) as R.
  rewrite <- Eb in R. rewrite Hbuf in R.
  exact (conj Hq (conj H (conj Hm (conj Hhi (conj Hb (conj Hf R)))))).
Defined.

(** The [Read] of six bytes that decodes frame 1. *)
Lemma Read_returns_some_bytes_drained :
  Read 1 room6 drained =
    Done ([x04; x05; x06; x07; xff; xff], 4, None) (final (Read 1 room6 drained)) /\
  0 <= 4 <= len room6 /\
  0 < 4 /\
  len [x04; x05; x06; x07; xff; xff] = len room6 /\
  slice_from [x04; x05; x06; x07; xff; xff] 4 = slice_from room6 4.
Proof.
  assert (E : Read 1 room6 drained =
              Done ([x04; x05; x06; x07; xff; xff], 4, None) (final (Read 1 room6 drained)))
    by (vm_compute; reflexivity).
  assert (Hr : room6 <> []) by discriminate.
  destruct (Read_returns_some_bytes 1 room6 _ 4 drained _ E) as (T1 & T2 & T3 & T4 & _).
  exact (conj E (conj T1 (conj (T2 Hr) (conj T3 T4)))).
Defined.

(** The four bytes waiting in a new decoder, read as one byte and then
    two, or as three at once. *)
Lemma Read_in_two_pieces_file10 :
  mux (opened file10) = false /\
  [xff; xff] <> [] /\
  len [xff] + len [xff; xff] <= len (buf (opened file10)) /\
  min_int64 <= pos (opened file10) /\
  pos (opened file10) + len (buf (opened file10)) <= max_int64 /\
  exists d1 d2,
    Read 0 [xff] (opened file10) = Done ([x00], 1, None) d1 /\
    Read 0 [xff; xff] d1 = Done ([x00; x00], 2, None) d2 /\
    Read 0 [xff; xff; xff] (opened file10) = Done ([x00; x00; x00], 3, None) d2.
Proof.
  assert (Hm : mux (opened file10) = false) by (vm_compute; reflexivity).
  assert (Hb : [xff; xff] <> ([] : list byte)) by discriminate.
  assert (Hl : len [xff] + len [xff; xff] <= len (buf (opened file10)))
    by (vm_compute; discriminate).
  assert (Hlo : min_int64 <= pos (opened file10)) by (vm_compute; discriminate).
  assert (Hhi : pos (opened file10) + len (buf (opened file10)) <= max_int64)
    by (vm_compute; discriminate).
  destruct (Read_in_two_pieces 0 0 0 [xff] [xff; xff] (opened file10) Hm Hb Hl Hlo Hhi)
    as (d1 & d2 & R1 & R2 & R3 & _).
  assert (Hbuf : buf (opened file10) = [x00; x00; x00; x00]) by (vm_compute; reflexivity).
  rewrite Hbuf in R1, R2, R3.
  exact (conj Hm (conj Hb (conj Hl (conj Hlo (conj Hhi
    (ex_intro _ d1 (ex_intro _ d2 (conj R1 (conj R2 R3))))))))).
Defined.

(** The half-way [SeekPercent] on the ten-frame stream: frames 1 to 4 are
    read, the buffer holds the bytes of frame 4 alone, the position is that
    of frame 1. *)
Lemma SeekPercent_keeps_last_lookback_frame_file10 :
  SeekPercent half (opened file10) =
    Done (4, None) (final (SeekPercent half (opened file10))) /\
  1 <= fractionFrame (len (frameStarts (opened file10))) half /\
  len (frameStarts (opened file10)) + 4 <= max_int64 /\
  (exists f, buf (final (SeekPercent half (opened file10))) =
             Decode_bytes f (volume (opened file10))) /\
  buf (final (SeekPercent half (opened file10))) = [sample 16; sample 17; sample 18; sample 19] /\
  pos (final (SeekPercent half (opened file10))) = 4.
Proof.
  assert (H : SeekPercent half (opened file10) =
              Done (4, None) (final (SeekPercent half (opened file10))))
    by (vm_compute; reflexivity).
  assert (Ht : 1 <= fractionFrame (len (frameStarts (opened file10))) half)
    by (vm_compute; discriminate).
  assert (Hl : len (frameStarts (opened file10)) + 4 <= max_int64) by (vm_compute; discriminate).
  assert (Hb : buf (final (SeekPercent half (opened file10))) =
               [sample 16; sample 17; sample 18; sample 19]) by (vm_compute; reflexivity).
  assert (Hp : pos (final (SeekPercent half (opened file10))) = 4) by (vm_compute; reflexivity).
  pose proof (SeekPercent_keeps_last_lookback_frame half (opened file10) _ 4 H Ht Hl) as T.
  cbv zeta in T. destruct T as (start & x0 & s0 & f & s' & _ & _ & _ & E).
  assert (Hex : exists f, buf (final (SeekPercent half (opened file10))) =
                          Decode_bytes f (volume (opened file10))).
  { exists f. rewrite E. reflexivity. }
  exact (conj H (conj Ht (conj Hl (conj Hex (conj Hb Hp))))).
Defined.

(** [SetVolume(2)] stores 1, and the bytes already decoded stay. *)
Example SetVolume_two_is_one :
  returned (SetVolume (binary_normalize 24 128 2 0 false) (opened file10)) = Some tt /\
  volume (final (SetVolume (binary_normalize 24 128 2 0 false) (opened file10))) = f32_one /\
  buf (final (SetVolume (binary_normalize 24 128 2 0 false) (opened file10))) =
  buf (opened file10).
Proof. vm_compute. repeat split. Qed.

(** [SetVolume(-1)] stores 0, [SetVolume(0.5)] stores 0.5. *)
Example SetVolume_minus_one_is_zero :
  volume (final (SetVolume (binary_normalize 24 128 (-1) 0 false) (opened file10))) = f32_zero /\
  volume (final (SetVolume (binary_normalize 24 128 1 (-1) false) (opened file10))) =
  binary_normalize 24 128 1 (-1) false.
Proof. vm_compute. repeat split. Qed.

(** The decoder of the ten-frame stream. *)
Lemma NewDecoder_initial_state_file10 :
  NewDecoder 64 file10 = Done None (opened file10) /\
  frame (opened file10) = Some 0 /\
  SampleRate (opened file10) = Done 44100 (opened file10) /\
  pos (opened file10) = 0 /\ mux (opened file10) = false /\
  Seek 0 io_SeekCurrent (opened file10) = Done (0, None) (opened file10).
Proof.
  assert (H : NewDecoder 64 file10 = Done None (opened file10)) by (vm_compute; reflexivity).
  assert (Hf : frame (opened file10) = Some 0) by (vm_compute; reflexivity).
  assert (Hs : sampleRate (opened file10) = 44100) by (vm_compute; reflexivity).
  destruct (NewDecoder_initial_state 64 file10 (opened file10) H)
    as (s0 & f & p & s1 & _ & _ & _ & _ & Tr & Tp & Tm & Tq).
  rewrite Hs in Tr.
  exact (conj H (conj Hf (conj Tr (conj Tp (conj Tm Tq))))).
Defined.


(** A stream without frames: [NewDecoder] fails with [io.EOF]. *)
Example NewDecoder_empty_stream :
  returned (NewDecoder 64 (mkReader 0 true)) = Some (Some io_EOF) /\
  returned (NewDecoder 64 (mkReader 0 false)) = Some (Some io_EOF).
Proof. vm_compute. repeat split. Qed.

(** [Seek] to the end of the ten-frame stream, as a seek from the end, from
    the current position and from the start: the last frame is read again
    and the frame behind it does not exist, so the seek fails with
    [io.EOF], the position moved to 40. *)
Example Seek_to_the_end_file10 :
  returned (Seek 0 io_SeekEnd (opened file10)) = Some (0, Some io_EOF) /\
  returned (Seek 40 io_SeekCurrent (opened file10)) = Some (0, Some io_EOF) /\
  returned (Seek 40 io_SeekStart (opened file10)) = Some (0, Some io_EOF) /\
  pos (final (Seek 0 io_SeekEnd (opened file10))) = 40.
Proof. vm_compute. repeat split. Qed.

(** [SeekPercent] refuses -0.5 and 1.5. *)
Example SeekPercent_rejects_file10 :
  returned (SeekPercent (binary_normalize 53 1024 (-1) (-1) false) (opened file10)) =
    Some (0, Some (errors_New "mp3: cannot seek to negative position")) /\
  returned (SeekPercent (binary_normalize 53 1024 3 (-1) false) (opened file10)) =
    Some (0, Some (errors_New "mp3: cannot seek beyond stream end")).
Proof. vm_compute. repeat split. Qed.
